(** * Region syncer and label scheduler of the placement driver

    A shallow embedding of [server/region_syncer/server.go] (the broadcast
    loop [RunServer], the per-connection handler [Sync], [syncHistoryRegion],
    [bindStream] and [broadcast]) and of [server/schedulers/label.go]
    ([labelScheduler.Schedule]), followed by the properties the design
    document states about them.

    Conventions.  Go's [uint64] is a [Z] in [0, 2^64) with the wrap-around
    written out; [len] and loop counters are [nat]; a Go map is a [gmap] and
    the order in which [range] visits it is supplied by the environment; a
    nil pointer to a protobuf message is [None] and the generated getters
    return the zero value on it.  The locks of [RegionSyncer] are not
    modelled: every function is run alone, from start to end. *)

From stdpp Require Import gmap strings list fin_maps pretty.

Set Warnings "-abstract-large-number,-clear-no-such-hyp".

Open Scope Z_scope.

Definition uint64 := Z.
Definition wrap64 (z : Z) : uint64 := z mod 2 ^ 64.

(** ** Protobuf messages: [metapb] *)
Module metapb.

Record Peer := { Peer_Id : uint64; Peer_StoreId : uint64 }.

Record RegionEpoch := { ConfVer : uint64; Version : uint64 }.

Record Region := {
  Region_Id : uint64;
  StartKey : string;
  EndKey : string;
  Region_RegionEpoch : option RegionEpoch;
  Peers : list Peer
}.

Record StoreLabel := { Key : string; Value : string }.

#[global] Instance StoreLabel_eq_dec : EqDecision StoreLabel.
Proof. solve_decision. Defined.

Definition GetStoreId (p : Peer) : uint64 := Peer_StoreId p.

End metapb.

(** ** Protobuf messages: [pdpb] *)
Module pdpb.

Record RequestHeader := { RequestHeader_ClusterId : uint64 }.

Record ResponseHeader := { ResponseHeader_ClusterId : uint64 }.

Record Member := {
  Member_Name : string;
  Member_MemberId : uint64;
  PeerUrls : list string;
  ClientUrls : list string
}.

Record PeerStats := { PeerStats_Peer : metapb.Peer; DownSeconds : uint64 }.

Record SyncRegionRequest := {
  Request_Header : option RequestHeader;
  Request_Member : option Member;
  Request_StartIndex : uint64
}.

Record SyncRegionResponse := {
  Header : option ResponseHeader;
  Regions : list metapb.Region;
  StartIndex : uint64
}.

(** The generated getters are nil-safe. *)
Definition GetHeader (r : SyncRegionRequest) : option RequestHeader :=
  Request_Header r.

Definition GetClusterId (h : option RequestHeader) : uint64 :=
  match h with Some h => RequestHeader_ClusterId h | None => 0 end.

Definition GetMember (r : SyncRegionRequest) : option Member :=
  Request_Member r.

Definition GetName (m : option Member) : string :=
  match m with Some m => Member_Name m | None => "" end.

Definition GetClientUrls (m : option Member) : list string :=
  match m with Some m => ClientUrls m | None => [] end.

Definition GetStartIndex (r : SyncRegionRequest) : uint64 :=
  Request_StartIndex r.

Definition GetPeer (p : PeerStats) : metapb.Peer := PeerStats_Peer p.

End pdpb.

(** ** [core]: region and store snapshots *)
Module core.

Record RegionInfo := {
  meta : metapb.Region;
  leader : option metapb.Peer;
  downPeers : list pdpb.PeerStats;
  pendingPeers : list metapb.Peer
}.

Definition GetMeta (r : RegionInfo) : metapb.Region := meta r.
Definition GetID (r : RegionInfo) : uint64 := metapb.Region_Id (meta r).
Definition GetRegionEpoch (r : RegionInfo) : option metapb.RegionEpoch :=
  metapb.Region_RegionEpoch (meta r).
Definition GetDownPeers (r : RegionInfo) : list pdpb.PeerStats := downPeers r.
Definition GetPendingPeers (r : RegionInfo) : list metapb.Peer := pendingPeers r.

Record StoreInfo := {
  Store_Id : uint64;
  Store_Address : string;
  Labels : list metapb.StoreLabel
}.

Definition GetId (s : StoreInfo) : uint64 := Store_Id s.

End core.

(** ** Errors and log lines *)

Inductive codes := codes_OK | codes_Unknown | codes_FailedPrecondition | codes_Unavailable.

Inductive error :=
| io_EOF
| transport_error (desc : string)
| errors_WithStack (cause : error)
| status_Error (c : codes) (msg : string).

#[global] Instance codes_eq_dec : EqDecision codes.
Proof. solve_decision. Defined.

#[global] Instance error_eq_dec : EqDecision error.
Proof. solve_decision. Defined.

Inductive LogEntry :=
| log_Info (msg : string)
| log_Warn (msg : string)
| log_Error (msg : string) (err : error).

(** [%d] of an unsigned integer. *)
Definition fmt_d (z : Z) : string := pretty z.

(** ** The history buffer, as [server.go] uses it

    The three methods the syncer calls; [hRecord] is [Record]. *)

Class History (H : Type) := {
  GetNextIndex : H → uint64;
  hRecord : core.RegionInfo → H → H;
  RecordsFrom : uint64 → H → list core.RegionInfo
}.

(** Modelled from the spec: the type [historyBuffer] and its methods
    ([newHistoryBuffer], [Record], [RecordsFrom], [GetNextIndex]) are defined
    in a file of the repository that is not among the sources; the model
    below follows the design document's description of the History Buffer:
    a bounded log of (index, record) entries spanning
    [startIndex, nextIndex), where [record] assigns [index = nextIndex],
    appends, advances [nextIndex], evicts the oldest entry once the size
    exceeds the capacity, and persists the watermark. *)
Module historyBuffer.

Record t := {
  capacity : nat;
  startIndex : uint64;
  nextIndex : uint64;
  entries : list (uint64 * core.RegionInfo);
  watermark : uint64
}.

Definition new (size : nat) (persisted : uint64) : t :=
  {| capacity := size; startIndex := persisted; nextIndex := persisted;
     entries := []; watermark := persisted |}.

(** [record(r) -> index] *)
Definition record (r : core.RegionInfo) (h : t) : uint64 * t :=
  let index := nextIndex h in
  let appended := entries h ++ [(index, r)] in
  let next := wrap64 (index + 1) in
  if (capacity h <? length appended)%nat
  then (index, {| capacity := capacity h;
                  startIndex := wrap64 (startIndex h + 1);
                  nextIndex := next;
                  entries := tail appended;
                  watermark := next |})
  else (index, {| capacity := capacity h;
                  startIndex := startIndex h;
                  nextIndex := next;
                  entries := appended;
                  watermark := next |}).

(** [recordsFrom(idx)]: the entries with index [>= idx], ascending; empty
    when the requested index has been evicted. *)
Definition recordsFrom (idx : uint64) (h : t) : list core.RegionInfo :=
  if idx <? startIndex h then []
  else (filter (λ e, idx ≤ e.1) (entries h)).*2.

(** Recording a sequence in order, keeping the index given to each. *)
Fixpoint recordAll (rs : list core.RegionInfo) (h : t) : list uint64 * t :=
  match rs with
  | [] => ([], h)
  | r :: rs' =>
      let '(index, h1) := record r h in
      let '(indices, h2) := recordAll rs' h1 in
      (index :: indices, h2)
  end.

#[global] Instance history : History t := {|
  GetNextIndex := nextIndex;
  hRecord r h := (record r h).2;
  RecordsFrom := recordsFrom
|}.

End historyBuffer.

(** ** [region_syncer/server.go] *)

Definition maxSyncRegionBatchSize : nat := 100.
Definition defaultHistoryBufferSize : nat := 10000.

(** A server stream is known by its handle; what a [Send] on it does is the
    environment's business. *)
Definition ServerStream := nat.

(** One call of [Send]: the stream, the message, and the error returned. *)
Definition SendEvent : Type := ServerStream * pdpb.SyncRegionResponse * option error.

(** The environment of the syncer: whether a [Send] fails (it may depend on
    everything sent so far), and the order in which [range] walks the stream
    table (any enumeration of its entries). *)
Class Env := {
  sendResult : ServerStream → pdpb.SyncRegionResponse → list SendEvent → option error;
  rangeStreams : gmap string ServerStream → list (string * ServerStream);
  rangeStreams_perm : ∀ m, rangeStreams m ≡ₚ map_to_list m
}.

(** The [Server] the syncer was created for. *)
Record Server := { ClusterID : uint64; Name : string }.

Section Syncer.
Context {H : Type} `{History H} `{Env}.

(** [RegionSyncer], with the channel it reads, the log it writes and the
    calls of [Send] it has made. *)
Record RegionSyncer := {
  streams : gmap string ServerStream;
  server : Server;
  history : H;
  regionNotifier : list core.RegionInfo;
  logs : list LogEntry;
  sent : list SendEvent
}.

Definition set_streams (m : gmap string ServerStream) (s : RegionSyncer) :=
  {| streams := m; server := server s; history := history s;
     regionNotifier := regionNotifier s; logs := logs s; sent := sent s |}.

Definition set_history (h : H) (s : RegionSyncer) :=
  {| streams := streams s; server := server s; history := h;
     regionNotifier := regionNotifier s; logs := logs s; sent := sent s |}.

Definition set_regionNotifier (q : list core.RegionInfo) (s : RegionSyncer) :=
  {| streams := streams s; server := server s; history := history s;
     regionNotifier := q; logs := logs s; sent := sent s |}.

Definition log (e : LogEntry) (s : RegionSyncer) :=
  {| streams := streams s; server := server s; history := history s;
     regionNotifier := regionNotifier s; logs := logs s ++ [e]; sent := sent s |}.

(** [stream.Send(resp)] *)
Definition Send (stream : ServerStream) (resp : pdpb.SyncRegionResponse)
    (s : RegionSyncer) : option error * RegionSyncer :=
  let err := sendResult stream resp (sent s) in
  (err, {| streams := streams s; server := server s; history := history s;
           regionNotifier := regionNotifier s; logs := logs s;
           sent := sent s ++ [(stream, resp, err)] |}).

(** [bindStream] *)
Definition bindStream (name : string) (stream : ServerStream) (s : RegionSyncer) :=
  set_streams (<[name := stream]> (streams s)) s.

(** The first loop of [broadcast]: send to every entry, collect the names
    whose send failed. *)
Fixpoint broadcast_send (entries : list (string * ServerStream))
    (regions : pdpb.SyncRegionResponse) (failed : list string)
    (s : RegionSyncer) : list string * RegionSyncer :=
  match entries with
  | [] => (failed, s)
  | (name, sender) :: rest =>
      let '(err, s1) := Send sender regions s in
      match err with
      | Some e =>
          broadcast_send rest regions (failed ++ [name])
            (log (log_Error "region syncer send data meet error:" e) s1)
      | None => broadcast_send rest regions failed s1
      end
  end.

(** The second loop of [broadcast]: drop the failed names. *)
Fixpoint broadcast_delete (failed : list string) (s : RegionSyncer) : RegionSyncer :=
  match failed with
  | [] => s
  | name :: rest =>
      broadcast_delete rest
        (log (log_Info ("region syncer delete the stream of " +:+ name))
             (set_streams (delete name (streams s)) s))
  end.

Definition broadcast (regions : pdpb.SyncRegionResponse) (s : RegionSyncer) : RegionSyncer :=
  let '(failed, s1) := broadcast_send (rangeStreams (streams s)) regions [] s in
  if (0 <? length failed)%nat then broadcast_delete failed s1 else s1.

(** What the environment answers to the sends of one walk over [entries],
    started after the calls in [trace]. *)
Fixpoint sendResults (entries : list (string * ServerStream))
    (regions : pdpb.SyncRegionResponse) (trace : list SendEvent) : list (option error) :=
  match entries with
  | [] => []
  | (_, sender) :: rest =>
      let err := sendResult sender regions trace in
      err :: sendResults rest regions (trace ++ [(sender, regions, err)])
  end.

(** The entries whose send was answered with an error, with that error. *)
Definition failedSends (entries : list (string * ServerStream))
    (results : list (option error)) : list (string * error) :=
  omap (λ er, (λ e, (er.1.1, e)) <$> er.2) (zip entries results).

(** [syncHistoryRegion] *)
Definition syncHistoryRegion (request : pdpb.SyncRegionRequest)
    (stream : ServerStream) (s : RegionSyncer) : option error * RegionSyncer :=
  let startIndex := pdpb.GetStartIndex request in
  let name := pdpb.GetName (pdpb.GetMember request) in
  let records := RecordsFrom startIndex (history s) in
  if (length records =? 0)%nat then
    if decide (GetNextIndex (history s) = startIndex) then
      (None, log (log_Info (name +:+ " already in sync with " +:+ Name (server s)
                            +:+ ", the last index is " +:+ fmt_d startIndex)) s)
    else
      (None, log (log_Warn ("no history regions from index " +:+ fmt_d startIndex
                            +:+ ", the leader maybe restarted")) s)
  else
    let s1 :=
      log (log_Info ("sync the history regions with " +:+ name
                     +:+ " from index: " +:+ fmt_d startIndex
                     +:+ ", own last index: " +:+ fmt_d (GetNextIndex (history s))
                     +:+ ", got records length: " +:+ pretty (length records))) s in
    let regions := core.GetMeta <$> records in
    let resp :=
      {| pdpb.Header := Some {| pdpb.ResponseHeader_ClusterId := ClusterID (server s) |};
         pdpb.Regions := regions;
         pdpb.StartIndex := startIndex |} in
    Send stream resp s1.

(** What [stream.Recv()] hands back. *)
Inductive RecvResult :=
  | RecvOk (request : pdpb.SyncRegionRequest)
  | RecvErr (err : error).

(** How a call of [Sync] ends: it returns (nil or an error), it panics, or
    it is still blocked in [Recv] when the script of the connection ends. *)
Inductive Outcome :=
  | Returned (err : option error)
  | Panicked (msg : string)
  | AwaitingRequest.

(** [Sync], over the successive results of [stream.Recv()]. *)
Fixpoint Sync (stream : ServerStream) (recvs : list RecvResult)
    (s : RegionSyncer) : Outcome * RegionSyncer :=
  match recvs with
  | [] => (AwaitingRequest, s)
  | RecvErr err :: _ =>
      if decide (err = io_EOF) then (Returned None, s)
      else (Returned (Some (errors_WithStack err)), s)
  | RecvOk request :: rest =>
      let clusterID := pdpb.GetClusterId (pdpb.GetHeader request) in
      if decide (clusterID ≠ ClusterID (server s)) then
        (Returned (Some (status_Error codes_FailedPrecondition
           ("mismatch cluster id, need " +:+ fmt_d (ClusterID (server s))
            +:+ " but got " +:+ fmt_d clusterID))), s)
      else
        match pdpb.GetClientUrls (pdpb.GetMember request) !! 0%nat with
        | None => (Panicked "runtime error: index out of range", s)
        | Some url =>
            let s1 :=
              log (log_Info ("establish sync region stream with "
                             +:+ pdpb.GetName (pdpb.GetMember request)
                             +:+ " [" +:+ url +:+ "]")) s in
            let '(err, s2) := syncHistoryRegion request stream s1 in
            match err with
            | Some e => (Returned (Some e), s2)
            | None =>
                Sync stream rest
                  (bindStream (pdpb.GetName (pdpb.GetMember request)) stream s2)
            end
        end
  end.

(** The drain loop of [RunServer]:
    [for i := 0; i < pending && i < maxSyncRegionBatchSize; i++]. *)
Fixpoint drain (iterations : nat) (requests : list metapb.Region)
    (s : RegionSyncer) : list metapb.Region * RegionSyncer :=
  match iterations with
  | O => (requests, s)
  | S n =>
      match regionNotifier s with
      | [] => (requests, s)
      | region :: queue =>
          drain n (requests ++ [core.GetMeta region])
            (set_history (hRecord region (history s)) (set_regionNotifier queue s))
      end
  end.

(** The batch message built in the [first := <-regionNotifier] case, and
    the syncer just before the call of [broadcast]. *)
Definition notifyBatch (first : core.RegionInfo) (s : RegionSyncer)
    : pdpb.SyncRegionResponse * RegionSyncer :=
  let requests := [core.GetMeta first] in
  let startIndex := GetNextIndex (history s) in
  let s1 := set_history (hRecord first (history s)) s in
  let pending := length (regionNotifier s1) in
  let '(requests, s2) := drain (Nat.min pending maxSyncRegionBatchSize) requests s1 in
  ({| pdpb.Header := Some {| pdpb.ResponseHeader_ClusterId := ClusterID (server s) |};
      pdpb.Regions := requests;
      pdpb.StartIndex := startIndex |}, s2).

(** The heartbeat message built in the [<-ticker.C] case. *)
Definition keepAlive (s : RegionSyncer) : pdpb.SyncRegionResponse :=
  {| pdpb.Header := Some {| pdpb.ResponseHeader_ClusterId := ClusterID (server s) |};
     pdpb.Regions := [];
     pdpb.StartIndex := GetNextIndex (history s) |}.

(** The case [select] takes in one turn of the loop. *)
Inductive SelectCase := case_quit | case_regionNotifier | case_ticker.

(** What happens around the loop: a producer puts a region on the channel,
    or the loop takes a turn. *)
Inductive Step :=
  | Notify (r : core.RegionInfo)
  | Select (c : SelectCase).

(** One turn of the loop of [RunServer]; [None] when it returns.  The
    receive case is not ready on an empty channel, and the turn is void. *)
Definition RunServer_turn (c : SelectCase) (s : RegionSyncer) : option RegionSyncer :=
  match c with
  | case_quit => None
  | case_regionNotifier =>
      match regionNotifier s with
      | [] => Some s
      | first :: queue =>
          let '(regions, s1) := notifyBatch first (set_regionNotifier queue s) in
          Some (broadcast regions s1)
      end
  | case_ticker => Some (broadcast (keepAlive s) s)
  end.

(** [RunServer] *)
Fixpoint RunServer (steps : list Step) (s : RegionSyncer) : RegionSyncer :=
  match steps with
  | [] => s
  | Notify r :: rest => RunServer rest (set_regionNotifier (regionNotifier s ++ [r]) s)
  | Select c :: rest =>
      match RunServer_turn c s with
      | None => log (log_Info "exit region syncer") s
      | Some s1 => RunServer rest s1
      end
  end.

End Syncer.

Arguments RegionSyncer H : clear implicits.

(** [NewRegionSyncer], on the history buffer of the design document; the
    watermark is what the storage hands back at start-up. *)
Definition NewRegionSyncer (srv : Server) (persisted : uint64)
    : RegionSyncer historyBuffer.t :=
  {| streams := ∅; server := srv;
     history := historyBuffer.new defaultHistoryBufferSize persisted;
     regionNotifier := []; logs := []; sent := [] |}.

(** ** [schedulers/label.go] *)

(** Modelled from the spec: package [schedule] (the generic scheduling
    framework: [Operator], [NewOperator], [OperatorKind], [TransferLeader],
    the filters, [BalanceSelector] and the [Cluster] accessors) is not among
    the sources; the design document describes it only at the boundary, as
    read-only cluster accessors (store list, region lookups by constraint,
    label/property checks) and shared filter/selector utilities.  An
    operator is the record of what [NewOperator] is given, a cluster is the
    record of the accessors [Schedule] calls, and what the selector picks is
    left to the environment. *)
Module schedule.

Inductive OperatorKind := OpLeader | OpRegion | OpAdmin | OpBalance.

Inductive OperatorStep :=
| TransferLeader (FromStore ToStore : uint64)
| AddPeer (ToStore PeerID : uint64)
| RemovePeer (FromStore : uint64).

Record Operator := {
  desc : string;
  regionID : uint64;
  regionEpoch : option metapb.RegionEpoch;
  kind : OperatorKind;
  steps : list OperatorStep
}.

Definition NewOperator (desc : string) (regionID : uint64)
    (regionEpoch : option metapb.RegionEpoch) (kind : OperatorKind)
    (steps : list OperatorStep) : Operator :=
  {| desc := desc; regionID := regionID; regionEpoch := regionEpoch;
     kind := kind; steps := steps |}.

Inductive Filter :=
| StoreStateFilter (TransferLeader : bool)
| excludedFilter (sources targets : gset uint64).

Definition NewExcludedFilter (sources targets : gset uint64) : Filter :=
  excludedFilter sources targets.

Inductive ResourceKind := LeaderKind | RegionKind.

Record BalanceSelector := { selector_kind : ResourceKind; filters : list Filter }.

Definition NewBalanceSelector (kind : ResourceKind) (filters : list Filter) :=
  {| selector_kind := kind; filters := filters |}.

(** The accessors of [Cluster] that the label scheduler reads. *)
Record Cluster := {
  GetStores : list core.StoreInfo;
  CheckLabelProperty : string → list metapb.StoreLabel → bool;
  RandLeaderRegion : uint64 → option core.RegionInfo;
  GetFollowerStores : core.RegionInfo → list core.StoreInfo
}.

End schedule.

(** What the scheduler takes from its surroundings: the name of the
    reject-leader label property, the store the selector picks among the
    candidates, and the order in which [range] walks the set of stores. *)
Class SchedulerEnv := {
  RejectLeader : string;
  SelectTarget : schedule.BalanceSelector → schedule.Cluster →
                 list core.StoreInfo → list schedule.Filter → option core.StoreInfo;
  rangeStores : gset uint64 → list uint64;
  rangeStores_perm : ∀ X, rangeStores X ≡ₚ elements X
}.

Module schedulers.
Section Label.
Context `{SchedulerEnv}.

Record labelScheduler := { selector : schedule.BalanceSelector }.

Definition newLabelScheduler : labelScheduler :=
  let filters := [schedule.StoreStateFilter true] in
  {| selector := schedule.NewBalanceSelector schedule.LeaderKind filters |}.

Definition GetName (s : labelScheduler) : string := "label-scheduler".

Definition GetType (s : labelScheduler) : string := "label".

(** One increment of [schedulerCounter]: the scheduler's name and the event. *)
Definition CounterInc : Type := string * string.

(** The first loop of [Schedule]: the ids of the stores whose labels carry
    the reject-leader property. *)
Fixpoint collectRejectLeaderStores (cluster : schedule.Cluster)
    (stores : list core.StoreInfo) (rejectLeaderStores : gset uint64) : gset uint64 :=
  match stores with
  | [] => rejectLeaderStores
  | s :: rest =>
      if schedule.CheckLabelProperty cluster RejectLeader (core.Labels s)
      then collectRejectLeaderStores cluster rest ({[core.GetId s]} ∪ rejectLeaderStores)
      else collectRejectLeaderStores cluster rest rejectLeaderStores
  end.

(** The stores a region's leader must not move to: those of its down and
    pending peers. *)
Definition excludeStoresOf (region : core.RegionInfo) : gset uint64 :=
  let downs :=
    foldl (λ acc p, {[metapb.GetStoreId (pdpb.GetPeer p)]} ∪ acc) ∅
          (core.GetDownPeers region) in
  foldl (λ acc p, {[metapb.GetStoreId p]} ∪ acc) downs (core.GetPendingPeers region).

(** The second loop of [Schedule], over the ids in the order [range] gives. *)
Fixpoint scheduleFrom (s : labelScheduler) (cluster : schedule.Cluster)
    (ids : list uint64) (counters : list CounterInc)
    : list schedule.Operator * list CounterInc :=
  match ids with
  | [] => ([], counters ++ [(GetName s, "no_region")])
  | id :: rest =>
      match schedule.RandLeaderRegion cluster id with
      | Some region =>
          let excludeStores := excludeStoresOf region in
          let filter := schedule.NewExcludedFilter ∅ excludeStores in
          match SelectTarget (selector s) cluster
                  (schedule.GetFollowerStores cluster region) [filter] with
          | None => scheduleFrom s cluster rest (counters ++ [(GetName s, "no_target")])
          | Some target =>
              let step := schedule.TransferLeader id (core.GetId target) in
              let op := schedule.NewOperator "label-reject-leader" (core.GetID region)
                          (core.GetRegionEpoch region) schedule.OpLeader [step] in
              ([op], counters ++ [(GetName s, "new_operator")])
          end
      | None => scheduleFrom s cluster rest counters
      end
  end.

(** [labelScheduler.Schedule]; the nil slice is the empty list. *)
Definition Schedule (s : labelScheduler) (cluster : schedule.Cluster)
    : list schedule.Operator * list CounterInc :=
  let counters := [(GetName s, "schedule")] in
  let stores := schedule.GetStores cluster in
  let rejectLeaderStores := collectRejectLeaderStores cluster stores ∅ in
  if (size rejectLeaderStores =? 0)%nat
  then ([], counters ++ [(GetName s, "skip")])
  else scheduleFrom s cluster (rangeStores rejectLeaderStores) counters.

End Label.
End schedulers.

(** ** Notions used to state the properties *)

(** The regions the producers put on the channel while [RunServer] is still
    running: those notified before the loop takes its quit case. *)
Fixpoint arrivals (steps : list Step) : list core.RegionInfo :=
  match steps with
  | [] => []
  | Notify r :: rest => r :: arrivals rest
  | Select case_quit :: _ => []
  | Select _ :: rest => arrivals rest
  end.

(** The calls of [Send] made from the state [s] to the state [s']. *)
Definition sentSince {H : Type} (s s' : RegionSyncer H) : list SendEvent :=
  drop (length (sent s)) (sent s').

(** Whether the leader of a region led by the store [id] can be moved: the
    cluster gives a region and the selector a target for it. *)
Definition movable `{SchedulerEnv} (s : schedulers.labelScheduler)
    (cluster : schedule.Cluster) (id : uint64) : Prop :=
  ∃ region target,
    schedule.RandLeaderRegion cluster id = Some region ∧
    SelectTarget (schedulers.selector s) cluster
      (schedule.GetFollowerStores cluster region)
      [schedule.NewExcludedFilter ∅ (schedulers.excludeStoresOf region)] = Some target.

(** The catch-up response [syncHistoryRegion] builds for a request: the
    records the history holds from the request's start index on. *)
Definition catchUp {H : Type} `{History H} (s : RegionSyncer H)
    (request : pdpb.SyncRegionRequest) : pdpb.SyncRegionResponse :=
  {| pdpb.Header := Some {| pdpb.ResponseHeader_ClusterId := ClusterID (server s) |};
     pdpb.Regions :=
       core.GetMeta <$> RecordsFrom (pdpb.GetStartIndex request) (history s);
     pdpb.StartIndex := pdpb.GetStartIndex request |}.

(** The requests of a script that get as far as the replay, as long as no
    send fails: those received before the first [Recv] error, the first
    request of another cluster and the first request without a client URL. *)
Fixpoint replayed (cluster : uint64) (recvs : list RecvResult)
    : list pdpb.SyncRegionRequest :=
  match recvs with
  | RecvOk request :: rest =>
      if decide (pdpb.GetClusterId (pdpb.GetHeader request) ≠ cluster) then []
      else match pdpb.GetClientUrls (pdpb.GetMember request) !! 0%nat with
           | None => []
           | Some _ => request :: replayed cluster rest
           end
  | _ => []
  end.

(** Whether the history holds records for a request ([len(records) != 0]). *)
Definition hasRecords {H : Type} `{History H} (s : RegionSyncer H)
    (request : pdpb.SyncRegionRequest) : bool :=
  negb (length (RecordsFrom (pdpb.GetStartIndex request) (history s)) =? 0)%nat.


(** ** Sample data

    A small cluster and a syncer with three followers, used to run the
    definitions above on concrete inputs. *)
Module sample.

Definition region (id : uint64) : core.RegionInfo :=
  {| core.meta :=
       {| metapb.Region_Id := id; metapb.StartKey := ""; metapb.EndKey := "";
          metapb.Region_RegionEpoch := Some {| metapb.ConfVer := 1; metapb.Version := 1 |};
          metapb.Peers := [ {| metapb.Peer_Id := 10 * id + 1; metapb.Peer_StoreId := 1 |};
                            {| metapb.Peer_Id := 10 * id + 2; metapb.Peer_StoreId := 2 |} ] |};
     core.leader := Some {| metapb.Peer_Id := 10 * id + 1; metapb.Peer_StoreId := 1 |};
     core.downPeers := [];
     core.pendingPeers := [] |}.

(** Every send on stream 1 fails; the table is walked in the order of its
    listing. *)
#[export] Instance env : Env := {|
  sendResult stream _ _ :=
    if decide (stream = 1%nat) then Some (transport_error "broken pipe") else None;
  rangeStreams := map_to_list;
  rangeStreams_perm m := reflexivity (map_to_list m)
|}.

Definition pd1 : Server := {| ClusterID := 7; Name := "pd1" |}.

(** A syncer of [pd1] whose history starts at index 40, with followers
    ["a"], ["b"] and ["c"] on the streams 1, 2 and 3. *)
Definition syncer : RegionSyncer historyBuffer.t :=
  let s := NewRegionSyncer pd1 40 in
  bindStream "c" 3%nat (bindStream "b" 2%nat (bindStream "a" 1%nat s)).

(** The same with [n] notifications on the channel. *)
Definition notified (n : nat) : RegionSyncer historyBuffer.t :=
  set_regionNotifier (region <$> seqZ 1 (Z.of_nat n)) syncer.

(** The same after the regions 1 and 2 have been recorded, at 40 and 41. *)
Definition recorded : RegionSyncer historyBuffer.t :=
  set_history (hRecord (region 2) (hRecord (region 1) (history syncer))) syncer.

Definition member (name : string) (urls : list string) : pdpb.Member :=
  {| pdpb.Member_Name := name; pdpb.Member_MemberId := 1;
     pdpb.PeerUrls := ["http://127.0.0.1:2380"]; pdpb.ClientUrls := urls |}.

Definition request (cluster : uint64) (urls : list string) (index : uint64)
    : pdpb.SyncRegionRequest :=
  {| pdpb.Request_Header := Some {| pdpb.RequestHeader_ClusterId := cluster |};
     pdpb.Request_Member := Some (member "d" urls);
     pdpb.Request_StartIndex := index |}.

Definition store (id : uint64) (zone : string) : core.StoreInfo :=
  {| core.Store_Id := id; core.Store_Address := "";
     core.Labels := [ {| metapb.Key := "zone"; metapb.Value := zone |} ] |}.

(** Stores 1 and 2 in zone ["z1"], store 3 in zone ["z2"]; leaders are
    rejected in the zone [rejected]; store 1 leads region 5, whose followers
    are on the stores 2 and 3. *)
Definition cluster (rejected : string) : schedule.Cluster :=
  {| schedule.GetStores := [store 1 "z1"; store 2 "z1"; store 3 "z2"];
     schedule.CheckLabelProperty typ labels :=
       bool_decide (typ = "reject-leader") &&
       bool_decide ({| metapb.Key := "zone"; metapb.Value := rejected |} ∈ labels);
     schedule.RandLeaderRegion id :=
       if decide (id = 1) then Some (region 5) else None;
     schedule.GetFollowerStores _ := [store 2 "z1"; store 3 "z2"] |}.

(** The selector takes the last candidate that the excluded-store filters
    let through. *)
Definition allowed (filters : list schedule.Filter) (s : core.StoreInfo) : bool :=
  forallb (λ f, match f with
                | schedule.excludedFilter _ targets =>
                    bool_decide (core.GetId s ∉ targets)
                | _ => true
                end) filters.

#[export] Instance schedulerEnv : SchedulerEnv := {|
  RejectLeader := "reject-leader";
  SelectTarget _ _ candidates filters := last (filter (λ s, allowed filters s) candidates);
  rangeStores := elements;
  rangeStores_perm X := reflexivity (elements X)
|}.

(** A request of the member [name], of the cluster of [pd1]. *)
Definition requestOf (name : string) (index : uint64) : pdpb.SyncRegionRequest :=
  {| pdpb.Request_Header := Some {| pdpb.RequestHeader_ClusterId := 7 |};
     pdpb.Request_Member := Some (member name ["http://" +:+ name +:+ ":2379"]);
     pdpb.Request_StartIndex := index |}.

(** Region 6, led by store 1, with a down peer on store 4 and a pending
    peer on store 3. *)
Definition region6 : core.RegionInfo :=
  {| core.meta := core.meta (region 6);
     core.leader := core.leader (region 6);
     core.downPeers :=
       [ {| pdpb.PeerStats_Peer := {| metapb.Peer_Id := 64; metapb.Peer_StoreId := 4 |};
            pdpb.DownSeconds := 30 |} ];
     core.pendingPeers := [ {| metapb.Peer_Id := 63; metapb.Peer_StoreId := 3 |} ] |}.

(** Store 1 alone in the zone that rejects leaders; it leads [region6],
    whose followers are on the stores 2, 3 and 4. *)
Definition clusterPending : schedule.Cluster :=
  {| schedule.GetStores := [store 1 "z1"; store 2 "z2"; store 3 "z2"; store 4 "z2"];
     schedule.CheckLabelProperty typ labels :=
       bool_decide (typ = "reject-leader") &&
       bool_decide ({| metapb.Key := "zone"; metapb.Value := "z1" |} ∈ labels);
     schedule.RandLeaderRegion id :=
       if decide (id = 1) then Some region6 else None;
     schedule.GetFollowerStores _ := [store 2 "z2"; store 3 "z2"; store 4 "z2"] |}.

(** Store 1 rejects leaders and leads region 5, but the region has no
    follower store to hand the leader to. *)
Definition clusterStuck : schedule.Cluster :=
  {| schedule.GetStores := [store 1 "z1"; store 2 "z2"];
     schedule.CheckLabelProperty typ labels :=
       bool_decide (typ = "reject-leader") &&
       bool_decide ({| metapb.Key := "zone"; metapb.Value := "z1" |} ∈ labels);
     schedule.RandLeaderRegion id :=
       if decide (id = 1) then Some (region 5) else None;
     schedule.GetFollowerStores _ := [] |}.

End sample.

(** * Properties *)

Section SyncerProperties.
Context {H : Type} `{History H} `{Env}.

Implicit Types (s : RegionSyncer H) (regions : pdpb.SyncRegionResponse).

Lemma sendResults_length entries regions trace :
  length (sendResults entries regions trace) = length entries.
Proof.
  revert trace. induction entries as [|[name sender] rest IH]; intros trace; simpl.
  - reflexivity.
  - by rewrite IH.
Qed.

(** The first loop only sends and logs; it leaves the table, the history and
    the channel alone. *)
Lemma broadcast_send_spec entries regions failed s :
  let results := sendResults entries regions (sent s) in
  let '(failed', s') := broadcast_send entries regions failed s in
  failed' = failed ++ (failedSends entries results).*1 ∧
  sent s' = sent s ++ zip_with (λ e r, (e.2, regions, r)) entries results ∧
  logs s' = logs s ++
    ((λ f, log_Error "region syncer send data meet error:" f.2)
       <$> failedSends entries results) ∧
  streams s' = streams s ∧ history s' = history s ∧
  regionNotifier s' = regionNotifier s ∧ server s' = server s.
Proof.
  revert failed s. induction entries as [|[name sender] rest IH]; intros failed s; simpl.
  - rewrite !app_nil_r. done.
  - destruct (sendResult sender regions (sent s)) as [e|] eqn:Hres.
    + specialize (IH (failed ++ [name])
        (log (log_Error "region syncer send data meet error:" e)
             (Send sender regions s).2)).
      simpl in IH. rewrite Hres in IH.
      destruct (broadcast_send rest regions _ _) as [failed' s'].
      destruct IH as (-> & -> & -> & -> & -> & -> & ->).
      unfold failedSends; simpl. rewrite <- !app_assoc. done.
    + specialize (IH failed (Send sender regions s).2).
      simpl in IH. rewrite Hres in IH.
      destruct (broadcast_send rest regions _ _) as [failed' s'].
      destruct IH as (-> & -> & -> & -> & -> & -> & ->).
      unfold failedSends; simpl. rewrite <- !app_assoc. done.
Qed.

Lemma broadcast_delete_spec names s :
  let s' := broadcast_delete names s in
  streams s' = foldl (λ m name, delete name m) (streams s) names ∧
  logs s' = logs s ++
    ((λ name, log_Info ("region syncer delete the stream of " +:+ name)) <$> names) ∧
  sent s' = sent s ∧ history s' = history s ∧
  regionNotifier s' = regionNotifier s ∧ server s' = server s.
Proof.
  revert s. induction names as [|name rest IH]; intros s; simpl.
  - rewrite app_nil_r. done.
  - destruct (IH (log (log_Info ("region syncer delete the stream of " +:+ name))
                      (set_streams (delete name (streams s)) s)))
      as (-> & -> & -> & -> & -> & ->).
    simpl. rewrite <- app_assoc. done.
Qed.

Lemma lookup_foldl_delete (m : gmap string ServerStream) (names : list string) k :
  foldl (λ m name, delete name m) m names !! k =
  if decide (k ∈ names) then None else m !! k.
Proof.
  revert m. induction names as [|name rest IH]; intros m; cbn [foldl].
  - destruct (decide (k ∈ [])) as [Hin|]; [by apply elem_of_nil in Hin | done].
  - rewrite IH. destruct (decide (k = name)) as [->|Hne].
    + rewrite lookup_delete_eq.
      destruct (decide (name ∈ rest)), (decide (name ∈ name :: rest));
        try done; exfalso; set_solver.
    + rewrite lookup_delete_ne by done.
      destruct (decide (k ∈ rest)), (decide (k ∈ name :: rest));
        try done; exfalso; set_solver.
Qed.

Lemma foldl_delete_filter (m : gmap string ServerStream) (names : list string) :
  foldl (λ m name, delete name m) m names = filter (λ kv, kv.1 ∉ names) m.
Proof.
  apply map_eq. intros k. rewrite lookup_foldl_delete.
  apply option_eq. intros v. rewrite map_lookup_filter_Some. simpl.
  case_decide; naive_solver.
Qed.

Lemma broadcast_spec regions s :
  let entries := rangeStreams (streams s) in
  let results := sendResults entries regions (sent s) in
  let failed := failedSends entries results in
  let s' := broadcast regions s in
  sent s' = sent s ++ zip_with (λ e r, (e.2, regions, r)) entries results ∧
  streams s' = filter (λ kv, kv.1 ∉ failed.*1) (streams s) ∧
  logs s' = logs s ++
    ((λ f, log_Error "region syncer send data meet error:" f.2) <$> failed) ++
    ((λ f, log_Info ("region syncer delete the stream of " +:+ f.1)) <$> failed) ∧
  history s' = history s ∧ regionNotifier s' = regionNotifier s ∧ server s' = server s.
Proof.
  intros entries results failed. unfold broadcast. fold entries.
  pose proof (broadcast_send_spec entries regions [] s) as Hsend.
  cbv zeta in Hsend. fold results failed in Hsend.
  destruct (broadcast_send entries regions [] s) as [names s1].
  destruct Hsend as (Hnames & Hsent & Hlogs & Hstreams & Hhist & Hq & Hsrv).
  simpl in Hnames. subst names.
  destruct (failed.*1) as [|name names] eqn:Hfailed.
  - assert (failed = []) as ->
      by (destruct failed; [done | discriminate]).
    simpl. rewrite Hsent, Hlogs, Hstreams, Hhist, Hq, Hsrv. simpl.
    split_and!; try done.
    apply map_eq. intros k. apply option_eq. intros v.
    rewrite map_lookup_filter_Some. simpl. split; [|naive_solver].
    intros ?. split; [done|]. apply not_elem_of_nil.
  - cbn [length Nat.ltb Nat.leb]. rewrite <- Hfailed. clear Hfailed.
    destruct (broadcast_delete_spec (failed.*1) s1) as (-> & -> & -> & -> & -> & ->).
    rewrite Hsent, Hlogs, Hstreams, Hhist, Hq, Hsrv.
    rewrite foldl_delete_filter, <- list_fmap_compose, <- app_assoc. done.
Qed.

(** C2. One call of [broadcast] walks the whole stream table and sends the
    message once to each entry; afterwards the table is the old one without
    exactly the entries whose send returned an error, the entries whose send
    succeeded are kept as they were, every removed entry has its log line
    with the follower's name, and nothing is sent a second time. *)
Theorem broadcast_drops_failed_streams regions s :
  let entries := rangeStreams (streams s) in
  let results := sendResults entries regions (sent s) in
  let failed := (failedSends entries results).*1 in
  let s' := broadcast regions s in
  entries ≡ₚ map_to_list (streams s) ∧
  length results = length entries ∧
  sent s' = sent s ++ zip_with (λ e r, (e.2, regions, r)) entries results ∧
  streams s' = filter (λ kv, kv.1 ∉ failed) (streams s) ∧
  (∀ name, streams s' !! name =
           if decide (name ∈ failed) then None else streams s !! name) ∧
  logs s' = logs s ++
    ((λ f, log_Error "region syncer send data meet error:" f.2)
       <$> failedSends entries results) ++
    ((λ name, log_Info ("region syncer delete the stream of " +:+ name)) <$> failed).
Proof.
  intros entries results failed s'.
  destruct (broadcast_spec regions s) as (Hsent & Hstreams & Hlogs & _).
  fold entries results failed s' in Hsent, Hstreams, Hlogs.
  split_and!.
  - apply rangeStreams_perm.
  - apply sendResults_length.
  - exact Hsent.
  - exact Hstreams.
  - intros name. rewrite Hstreams, <- foldl_delete_filter. apply lookup_foldl_delete.
  - rewrite Hlogs. subst failed. by rewrite <- list_fmap_compose.
Qed.

(** ** The broadcast loop *)

Lemma drain_spec n requests s :
  drain n requests s =
    (requests ++ (core.GetMeta <$> take n (regionNotifier s)),
     set_history (foldl (λ h r, hRecord r h) (history s) (take n (regionNotifier s)))
       (set_regionNotifier (drop n (regionNotifier s)) s)).
Proof.
  revert requests s. induction n as [|n IH]; intros requests s.
  - destruct s. simpl. by rewrite app_nil_r.
  - simpl. destruct (regionNotifier s) as [|region queue] eqn:Hq.
    + destruct s; simpl in *; subst. by rewrite app_nil_r.
    + rewrite IH. simpl. by rewrite <- app_assoc.
Qed.

(** The turn taken on a notification, spelt out: the batch is the region
    received and as many of the queued ones as were pending, up to the cap;
    each is recorded, in order; the rest stays on the channel. *)
Lemma RunServer_notified first queue steps s :
  regionNotifier s = first :: queue →
  let batch := first :: take (Nat.min (length queue) maxSyncRegionBatchSize) queue in
  let regions :=
    {| pdpb.Header := Some {| pdpb.ResponseHeader_ClusterId := ClusterID (server s) |};
       pdpb.Regions := core.GetMeta <$> batch;
       pdpb.StartIndex := GetNextIndex (history s) |} in
  let s1 :=
    set_history (foldl (λ h r, hRecord r h) (history s) batch)
      (set_regionNotifier
         (drop (Nat.min (length queue) maxSyncRegionBatchSize) queue) s) in
  RunServer (Select case_regionNotifier :: steps) s = RunServer steps (broadcast regions s1).
Proof.
  intros Hq. cbn [RunServer RunServer_turn]. rewrite Hq.
  unfold notifyBatch. rewrite drain_spec. simpl. done.
Qed.

(** C1. With a notification received and at least [maxSyncRegionBatchSize]
    more already queued (150 at once, say), the loop drains exactly 100
    further ones and broadcasts one message of 101 regions, the one received
    first and the 100 drained; what was queued beyond stays on the channel. *)
Theorem RunServer_batch_holds_one_more_than_cap first queue steps s :
  regionNotifier s = first :: queue →
  (maxSyncRegionBatchSize ≤ length queue)%nat →
  ∃ regions s1,
    RunServer (Select case_regionNotifier :: steps) s =
      RunServer steps (broadcast regions s1) ∧
    pdpb.Regions regions = core.GetMeta <$> first :: take 100 queue ∧
    length (pdpb.Regions regions) = 101%nat ∧
    regionNotifier s1 = drop 100 queue ∧
    length (regionNotifier s1) = (length queue - 100)%nat.
Proof.
  intros Hq Hlen. eexists _, _. split; [by apply RunServer_notified|].
  unfold maxSyncRegionBatchSize in *.
  rewrite Nat.min_r by done. simpl.
  rewrite length_fmap, length_take, length_drop, Nat.min_l by done. done.
Qed.


(** ** The session handler *)

(** A prefix of the script that leaves the handler back in [Recv] can be
    cut off: the handler goes on from the state it reached. *)
Lemma Sync_app stream recvs recvs' s s' :
  Sync stream recvs s = (AwaitingRequest, s') →
  Sync stream (recvs ++ recvs') s = Sync stream recvs' s'.
Proof.
  revert s. induction recvs as [|[request|err] rest IH]; intros s; simpl.
  - by intros [= ->].
  - destruct (decide _); [done|].
    destruct (_ !! 0%nat); [|done].
    destruct (syncHistoryRegion _ _ _) as [[e|] s2]; [done|]. apply IH.
  - destruct (decide _); done.
Qed.

(** C3. A request whose cluster id is not the server's ends the session
    with a [FailedPrecondition] status, whatever its start index: the
    syncer is left as it was, so no response has been sent and the stream
    has not been registered. *)
Theorem Sync_rejects_mismatched_cluster stream request rest s :
  pdpb.GetClusterId (pdpb.GetHeader request) ≠ ClusterID (server s) →
  ∃ msg,
    Sync stream (RecvOk request :: rest) s =
      (Returned (Some (status_Error codes_FailedPrecondition msg)), s).
Proof.
  intros Hne. simpl. destruct (decide _) as [_|Heq]; [|done]. eauto.
Qed.

(** The replay on its own.  When the history holds records from the
    requested index on, it makes exactly one call of [Send] on the stream: the
    response carries the meta of every returned record, in order, and the
    start index of the request; nothing else of the syncer changes but the
    log, and the error of the replay is the error of that send. *)
Theorem syncHistoryRegion_sends_one_response request stream s :
  RecordsFrom (pdpb.GetStartIndex request) (history s) ≠ [] →
  let resp :=
    {| pdpb.Header := Some {| pdpb.ResponseHeader_ClusterId := ClusterID (server s) |};
       pdpb.Regions := core.GetMeta <$> RecordsFrom (pdpb.GetStartIndex request) (history s);
       pdpb.StartIndex := pdpb.GetStartIndex request |} in
  let err := sendResult stream resp (sent s) in
  let s' := (syncHistoryRegion request stream s).2 in
  (syncHistoryRegion request stream s).1 = err ∧
  sent s' = sent s ++ [(stream, resp, err)] ∧
  streams s' = streams s ∧ history s' = history s.
Proof.
  intros Hrecords resp err s'. subst s'. unfold syncHistoryRegion.
  destruct (RecordsFrom _ _) as [|r records] eqn:Hr; [done|].
  simpl. done.
Qed.

Lemma syncHistoryRegion_empty request stream s :
  RecordsFrom (pdpb.GetStartIndex request) (history s) = [] →
  ∃ line,
    syncHistoryRegion request stream s = (None, log line s) ∧
    line =
      if decide (GetNextIndex (history s) = pdpb.GetStartIndex request)
      then log_Info (pdpb.GetName (pdpb.GetMember request) +:+ " already in sync with "
                     +:+ Name (server s) +:+ ", the last index is "
                     +:+ fmt_d (pdpb.GetStartIndex request))
      else log_Warn ("no history regions from index "
                     +:+ fmt_d (pdpb.GetStartIndex request)
                     +:+ ", the leader maybe restarted").
Proof.
  intros Hr. unfold syncHistoryRegion. rewrite Hr. simpl.
  destruct (decide _); eauto.
Qed.

(** A request that gets as far as the replay (the handler has read the
    member's first client URL for its log line) and finds no record, whether
    the follower is current (its index is the next index: an info line) or its
    history is gone (a warning): nothing is sent, the stream is bound under
    the member's name and the handler goes back to [Recv]. *)
Theorem Sync_empty_replay_registers stream request url rest s :
  pdpb.GetClusterId (pdpb.GetHeader request) = ClusterID (server s) →
  pdpb.GetClientUrls (pdpb.GetMember request) !! 0%nat = Some url →
  RecordsFrom (pdpb.GetStartIndex request) (history s) = [] →
  ∃ s', Sync stream (RecvOk request :: rest) s = Sync stream rest s' ∧
    sent s' = sent s ∧
    streams s' = <[pdpb.GetName (pdpb.GetMember request) := stream]> (streams s) ∧
    history s' = history s ∧
    logs s' = logs s ++
      [log_Info ("establish sync region stream with "
                 +:+ pdpb.GetName (pdpb.GetMember request) +:+ " [" +:+ url +:+ "]");
       if decide (GetNextIndex (history s) = pdpb.GetStartIndex request)
       then log_Info (pdpb.GetName (pdpb.GetMember request) +:+ " already in sync with "
                      +:+ Name (server s) +:+ ", the last index is "
                      +:+ fmt_d (pdpb.GetStartIndex request))
       else log_Warn ("no history regions from index "
                      +:+ fmt_d (pdpb.GetStartIndex request)
                      +:+ ", the leader maybe restarted")].
Proof.
  intros Hid Hurl Hr. cbn [Sync].
  destruct (decide _) as [Hne|_]; [done|]. rewrite Hurl.
  set (s1 := log _ s).
  destruct (syncHistoryRegion_empty request stream s1 Hr) as (line & -> & ->).
  eexists. split; [reflexivity|]. simpl. rewrite <- app_assoc. done.
Qed.

(** C8. Whenever the handler is back in [Recv], a clean end of input makes
    it return nil and any other error makes it return that error (with its
    stack), the syncer being left as the requests before had made it. *)
Theorem Sync_recv_error stream requests err rest s s' :
  Sync stream (RecvOk <$> requests) s = (AwaitingRequest, s') →
  Sync stream ((RecvOk <$> requests) ++ RecvErr err :: rest) s =
    (Returned (if decide (err = io_EOF) then None else Some (errors_WithStack err)), s').
Proof.
  intros Hprefix. rewrite (Sync_app _ _ _ _ _ Hprefix). simpl.
  destruct (decide _); done.
Qed.

(** C9. Past the cluster check the handler indexes the member's client URLs
    at 0 with no test of their number: with no client URL (or no member) the
    index is out of range and the handler panics, leaving the syncer as it
    was; with at least one, the turn does not panic. *)
Theorem Sync_first_client_url_unchecked stream request s :
  pdpb.GetClusterId (pdpb.GetHeader request) = ClusterID (server s) →
  (pdpb.GetClientUrls (pdpb.GetMember request) = [] →
   ∀ rest, Sync stream (RecvOk request :: rest) s =
           (Panicked "runtime error: index out of range", s)) ∧
  (pdpb.GetClientUrls (pdpb.GetMember request) ≠ [] →
   ∀ msg, (Sync stream [RecvOk request] s).1 ≠ Panicked msg).
Proof.
  intros Hid. split.
  - intros Hurls rest. simpl. destruct (decide _) as [Hne|_]; [done|].
    by rewrite Hurls.
  - intros Hurls msg. simpl. destruct (decide _) as [Hne|_]; [done|].
    destruct (pdpb.GetClientUrls _) as [|url urls]; [done|]. simpl.
    destruct (syncHistoryRegion _ _ _) as [[e|] s2]; done.
Qed.

(** C4. A request of the server's cluster for which the history holds
    records.  The session sends the one catch-up response (every returned
    record, in order, with the start index of the request) only when the
    member carries a client URL: the handler reads the first URL for its log
    line before the replay, and with no URL it panics there, so that no
    response at all is sent and the syncer is left as it was. *)
Theorem Sync_nonempty_replay_by_client_url stream request rest s :
  pdpb.GetClusterId (pdpb.GetHeader request) = ClusterID (server s) →
  RecordsFrom (pdpb.GetStartIndex request) (history s) ≠ [] →
  let resp :=
    {| pdpb.Header := Some {| pdpb.ResponseHeader_ClusterId := ClusterID (server s) |};
       pdpb.Regions := core.GetMeta <$> RecordsFrom (pdpb.GetStartIndex request) (history s);
       pdpb.StartIndex := pdpb.GetStartIndex request |} in
  let err := sendResult stream resp (sent s) in
  (pdpb.GetClientUrls (pdpb.GetMember request) = [] →
   Sync stream (RecvOk request :: rest) s =
     (Panicked "runtime error: index out of range", s)) ∧
  (pdpb.GetClientUrls (pdpb.GetMember request) ≠ [] →
   ∃ s1,
     sent s1 = sent s ++ [(stream, resp, err)] ∧
     streams s1 = streams s ∧ history s1 = history s ∧
     Sync stream (RecvOk request :: rest) s =
       match err with
       | Some e => (Returned (Some e), s1)
       | None =>
           Sync stream rest
             (bindStream (pdpb.GetName (pdpb.GetMember request)) stream s1)
       end).
Proof.
  intros Hid Hrecords resp err. subst resp err. split; intros Hurls; cbn [Sync];
    (destruct (decide _) as [Hne|_]; [done|]).
  - by rewrite Hurls.
  - destruct (pdpb.GetClientUrls _) as [|url urls]; [done|]. cbn [lookup list_lookup].
    set (s0 := log _ s).
    destruct (syncHistoryRegion_sends_one_response request stream s0 Hrecords)
      as (Herr & Hsent & Hstreams & Hhist).
    exists (syncHistoryRegion request stream s0).2.
    destruct (syncHistoryRegion request stream s0) as [err s2].
    simpl in Herr, Hsent, Hstreams, Hhist. subst err. done.
Qed.

(** C5. A request of the server's cluster for which the history holds no
    record, be the follower current or its history gone.  The session sends
    nothing, does not fail and registers its stream under the member's name
    only when the member carries a client URL; with no URL the handler
    panics at its log line before the replay, and the stream is not
    registered. *)
Theorem Sync_empty_replay_by_client_url stream request rest s :
  pdpb.GetClusterId (pdpb.GetHeader request) = ClusterID (server s) →
  RecordsFrom (pdpb.GetStartIndex request) (history s) = [] →
  (pdpb.GetClientUrls (pdpb.GetMember request) = [] →
   Sync stream (RecvOk request :: rest) s =
     (Panicked "runtime error: index out of range", s)) ∧
  (pdpb.GetClientUrls (pdpb.GetMember request) ≠ [] →
   ∃ s', Sync stream (RecvOk request :: rest) s = Sync stream rest s' ∧
     sent s' = sent s ∧
     streams s' = <[pdpb.GetName (pdpb.GetMember request) := stream]> (streams s) ∧
     history s' = history s).
Proof.
  intros Hid Hrecords. split; intros Hurls.
  - cbn [Sync]. destruct (decide _) as [Hne|_]; [done|]. by rewrite Hurls.
  - destruct (pdpb.GetClientUrls (pdpb.GetMember request)) as [|url urls] eqn:Hlist;
      [done|].
    destruct (Sync_empty_replay_registers stream request url rest s)
      as (s' & Hsync & Hsent & Hstreams & Hhist & _); [done|by rewrite Hlist|done|].
    by exists s'.
Qed.

End SyncerProperties.

(** ** The batch and the indices of the history buffer *)

Section HistoryBufferProperties.
Context `{Env}.

Implicit Types (h : historyBuffer.t) (s : RegionSyncer historyBuffer.t).

Lemma record_nextIndex r h :
  historyBuffer.nextIndex (historyBuffer.record r h).2 =
  wrap64 (historyBuffer.nextIndex h + 1).
Proof. unfold historyBuffer.record. by destruct (_ <? _)%nat. Qed.

Lemma record_index r h :
  (historyBuffer.record r h).1 = historyBuffer.nextIndex h.
Proof. unfold historyBuffer.record. by destruct (_ <? _)%nat. Qed.

Lemma wrap64_idemp z : wrap64 (wrap64 z) = wrap64 z.
Proof. unfold wrap64. by rewrite Z.mod_mod. Qed.

Lemma wrap64_succ z k : wrap64 (wrap64 (z + 1) + k) = wrap64 (z + (k + 1)).
Proof.
  unfold wrap64. rewrite Zplus_mod_idemp_l. f_equal. lia.
Qed.

Lemma recordAll_history rs h :
  (historyBuffer.recordAll rs h).2 = foldl (λ h r, hRecord r h) h rs.
Proof.
  revert h. induction rs as [|r rs IH]; intros h; simpl; [done|].
  destruct (historyBuffer.record r h) as [index h1] eqn:Hrec.
  specialize (IH h1).
  destruct (historyBuffer.recordAll rs h1) as [indices h2]. simpl in *.
  exact IH.
Qed.

(** Records made in a row get consecutive indices, from the next index on. *)
Lemma recordAll_indices rs h :
  wrap64 (historyBuffer.nextIndex h) = historyBuffer.nextIndex h →
  (historyBuffer.recordAll rs h).1 =
  (λ i, wrap64 (historyBuffer.nextIndex h + Z.of_nat i)) <$> seq 0 (length rs).
Proof.
  revert h. induction rs as [|r rs IH]; intros h Hwf; simpl; [done|].
  pose proof (record_nextIndex r h) as Hnext.
  pose proof (record_index r h) as Hindex.
  destruct (historyBuffer.record r h) as [index h1]. simpl in Hnext, Hindex.
  specialize (IH h1).
  destruct (historyBuffer.recordAll rs h1) as [indices h2]. simpl in *.
  rewrite Z.add_0_r, Hwf, Hindex. f_equal.
  rewrite IH by (rewrite Hnext; apply wrap64_idemp).
  rewrite <- fmap_S_seq, <- list_fmap_compose.
  apply list_fmap_ext. intros _ i _. simpl.
  rewrite Hnext, wrap64_succ. f_equal. lia.
Qed.

(** C6. The start index of a broadcast batch is the index the history
    buffer gives to the first record of the batch, and the records of the
    batch get the following indices in order: the record at position [i] of
    the message has index [StartIndex + i] (in [uint64]). *)
Theorem RunServer_batch_StartIndex first queue steps s :
  regionNotifier s = first :: queue →
  0 ≤ historyBuffer.nextIndex (history s) < 2 ^ 64 →
  ∃ regions s1 batch,
    RunServer (Select case_regionNotifier :: steps) s =
      RunServer steps (broadcast regions s1) ∧
    batch = first :: take (Nat.min (length queue) maxSyncRegionBatchSize) queue ∧
    pdpb.Regions regions = core.GetMeta <$> batch ∧
    history s1 = (historyBuffer.recordAll batch (history s)).2 ∧
    pdpb.StartIndex regions = (historyBuffer.record first (history s)).1 ∧
    (historyBuffer.recordAll batch (history s)).1 =
      (λ i, wrap64 (pdpb.StartIndex regions + Z.of_nat i)) <$> seq 0 (length batch).
Proof.
  intros Hq Hrange. eexists _, _, _.
  split; [by apply RunServer_notified|].
  split; [reflexivity|]. cbn [pdpb.Regions pdpb.StartIndex history set_history].
  split_and!.
  - done.
  - by rewrite recordAll_history.
  - by rewrite record_index.
  - apply recordAll_indices. unfold wrap64. by apply Z.mod_small.
Qed.

End HistoryBufferProperties.

(** ** The label scheduler *)

Section LabelProperties.
Context `{SchedulerEnv}.

Import schedulers.

Lemma elem_of_collectRejectLeaderStores cluster stores acc id :
  id ∈ collectRejectLeaderStores cluster stores acc ↔
  id ∈ acc ∨ ∃ store, store ∈ stores ∧ core.GetId store = id ∧
             schedule.CheckLabelProperty cluster RejectLeader (core.Labels store) = true.
Proof.
  revert acc. induction stores as [|store rest IH]; intros acc; simpl.
  - split; [by left|]. intros [?|(store & Hin & _)]; [done|].
    by apply elem_of_nil in Hin.
  - destruct (schedule.CheckLabelProperty _ _ _) eqn:Hcheck; rewrite IH.
    + rewrite elem_of_union, elem_of_singleton. split.
      * intros [[->|?]|(st & ? & ? & ?)]; [right|by left|right].
        -- exists store. split_and!; [left|done|done].
        -- exists st. split_and!; [by right|done|done].
      * intros [?|(st & [->|?]%elem_of_cons & <- & ?)];
          [by left; right|by left; left|right]. by exists st.
    + split.
      * intros [?|(st & ? & ? & ?)]; [by left|right].
        exists st. split_and!; [by right|done|done].
      * intros [?|(st & [->|?]%elem_of_cons & ? & ?)]; [by left|congruence|right].
        by exists st.
Qed.

Lemma scheduleFrom_spec s cluster ids counters :
  let ops := (scheduleFrom s cluster ids counters).1 in
  ops = [] ∨
  ∃ id region target,
    id ∈ ids ∧
    schedule.RandLeaderRegion cluster id = Some region ∧
    ops = [schedule.NewOperator "label-reject-leader" (core.GetID region)
             (core.GetRegionEpoch region) schedule.OpLeader
             [schedule.TransferLeader id (core.GetId target)]].
Proof.
  revert counters. induction ids as [|id rest IH]; intros counters; simpl.
  - by left.
  - destruct (schedule.RandLeaderRegion cluster id) as [region|] eqn:Hregion.
    + destruct (SelectTarget _ _ _ _) as [target|].
      * right. exists id, region, target. split_and!; [left|done|done].
      * destruct (IH (counters ++ [(GetName s, "no_target")]))
          as [?|(id' & region' & target' & ? & ? & ?)]; [by left|right].
        exists id', region', target'. split_and!; [by right|done|done].
    + destruct (IH counters) as [?|(id' & region' & target' & ? & ? & ?)];
        [by left|right].
      exists id', region', target'. split_and!; [by right|done|done].
Qed.

(** C10. [Schedule] returns nothing or exactly one operator; that operator
    is of kind [OpLeader] and its one step transfers the leader of a
    region away from a store of the cluster whose labels carry the
    reject-leader property, a store that leads the region; when no store
    carries the property, [Schedule] returns nothing. *)
Theorem Schedule_transfers_leader_off_reject_store s cluster :
  let ops := (Schedule s cluster).1 in
  (ops = [] ∨
   ∃ store region target,
     store ∈ schedule.GetStores cluster ∧
     schedule.CheckLabelProperty cluster RejectLeader (core.Labels store) = true ∧
     schedule.RandLeaderRegion cluster (core.GetId store) = Some region ∧
     ops = [schedule.NewOperator "label-reject-leader" (core.GetID region)
              (core.GetRegionEpoch region) schedule.OpLeader
              [schedule.TransferLeader (core.GetId store) (core.GetId target)]]) ∧
  (Forall (λ store, schedule.CheckLabelProperty cluster RejectLeader
                      (core.Labels store) = false) (schedule.GetStores cluster) →
   ops = []).
Proof.
  intros ops. subst ops. unfold Schedule.
  set (reject := collectRejectLeaderStores cluster (schedule.GetStores cluster) ∅).
  split.
  - destruct (size reject =? 0)%nat; [by left|].
    destruct (scheduleFrom_spec s cluster (rangeStores reject)
                [(GetName s, "schedule")]) as [?|(id & region & target & Hin & Hr & Hops)];
      [by left|right].
    rewrite rangeStores_perm, elem_of_elements in Hin.
    apply elem_of_collectRejectLeaderStores in Hin
      as [Hin|(store & Hstore & <- & Hcheck)]; [by apply elem_of_empty in Hin|].
    by exists store, region, target.
  - intros Hnone. assert (reject = ∅) as ->; [|done].
    apply set_eq. intros id. split; [|by intros ?%elem_of_empty].
    intros [Hin|(store & Hstore & _ & Hcheck)]%elem_of_collectRejectLeaderStores;
      [done|].
    rewrite Forall_forall in Hnone. specialize (Hnone store Hstore). simpl in Hnone.
    congruence.
Qed.

End LabelProperties.

(** ** The definitions at work on the sample data *)

Section Samples.
Import sample.

(** 150 notifications at once: one message of 101 regions, 49 left. *)
Lemma RunServer_batch_of_150 :
  ∃ regions s1,
    RunServer (Select case_regionNotifier :: []) (notified 150) =
      RunServer [] (broadcast regions s1) ∧
    pdpb.Regions regions =
      core.GetMeta <$> region 1 :: take 100 (region <$> seqZ 2 149) ∧
    length (pdpb.Regions regions) = 101%nat ∧
    regionNotifier s1 = drop 100 (region <$> seqZ 2 149) ∧
    length (regionNotifier s1) = (length (region <$> seqZ 2 149) - 100)%nat.
Proof.
  apply (RunServer_batch_holds_one_more_than_cap
           (region 1) (region <$> seqZ 2 149) [] (notified 150)).
  - reflexivity.
  - vm_compute. lia.
Defined.

(** Follower ["a"] sits on the failing stream: one heartbeat is sent to all
    three followers and ["a"] is dropped; the next one only reaches ["b"] and
    ["c"]. *)
Example broadcast_twice :
  let s1 := broadcast (keepAlive syncer) syncer in
  let s2 := broadcast (keepAlive s1) s1 in
  streams s1 = delete "a" (streams syncer) ∧
  (sent s1).*1.*1 = [3; 1; 2]%nat ∧
  (drop 3 (sent s2)).*1.*1 = [3; 2]%nat ∧
  logs s2 = [log_Error "region syncer send data meet error:" (transport_error "broken pipe");
             log_Info "region syncer delete the stream of a"].
Proof. vm_compute. done. Qed.

(** A request of another cluster: the session fails and the syncer is as
    before. *)
Lemma Sync_other_cluster :
  ∃ msg,
    Sync 4%nat [RecvOk (request 8 ["http://d:2379"] 40)] syncer =
      (Returned (Some (status_Error codes_FailedPrecondition msg)), syncer).
Proof.
  apply (Sync_rejects_mismatched_cluster 4%nat (request 8 ["http://d:2379"] 40) [] syncer).
  vm_compute. discriminate.
Defined.

(** A follower at index 40 of a history holding 40 and 41 is sent the two
    regions in one response. *)
Lemma syncHistoryRegion_two_records :
  let rq := request 7 ["http://d:2379"] 40 in
  let resp :=
    {| pdpb.Header := Some {| pdpb.ResponseHeader_ClusterId := 7 |};
       pdpb.Regions := [core.GetMeta (region 1); core.GetMeta (region 2)];
       pdpb.StartIndex := 40 |} in
  (syncHistoryRegion rq 4%nat recorded).1 = None ∧
  sent (syncHistoryRegion rq 4%nat recorded).2 = [(4%nat, resp, None)] ∧
  streams (syncHistoryRegion rq 4%nat recorded).2 = streams recorded ∧
  history (syncHistoryRegion rq 4%nat recorded).2 = history recorded.
Proof.
  assert (RecordsFrom (pdpb.GetStartIndex (request 7 ["http://d:2379"] 40))
            (history recorded) ≠ []) as Hrecords
    by (vm_compute; discriminate).
  exact (syncHistoryRegion_sends_one_response
           (request 7 ["http://d:2379"] 40) 4%nat recorded Hrecords).
Defined.

(** A follower at index 0 of a history that starts at 40: nothing is sent,
    the follower is registered, and the handler waits for the next request. *)
Lemma Sync_history_gone :
  ∃ s', Sync 4%nat [RecvOk (request 7 ["http://d:2379"] 0)] recorded = (AwaitingRequest, s') ∧
    sent s' = [] ∧ streams s' !! "d" = Some 4%nat ∧
    last (logs s') =
      Some (log_Warn "no history regions from index 0, the leader maybe restarted").
Proof.
  destruct (Sync_empty_replay_registers 4%nat (request 7 ["http://d:2379"] 0)
              "http://d:2379" [] recorded) as (s' & Hsync & Hsent & Hstreams & _ & Hlogs).
  - reflexivity.
  - reflexivity.
  - reflexivity.
  - exists s'. split_and!.
    + exact Hsync.
    + exact Hsent.
    + rewrite Hstreams. apply lookup_insert_eq.
    + rewrite Hlogs. reflexivity.
Defined.

(** Three notifications with the next index at 40: the batch starts at 40
    and its records are given 40, 41 and 42. *)
Lemma RunServer_batch_of_3 :
  ∃ regions,
    pdpb.StartIndex regions = 40 ∧
    pdpb.Regions regions = core.GetMeta <$> [region 1; region 2; region 3] ∧
    (historyBuffer.recordAll [region 1; region 2; region 3] (history (notified 3))).1 =
      [40; 41; 42].
Proof.
  destruct (RunServer_batch_StartIndex (region 1) [region 2; region 3] [] (notified 3))
    as (regions & s1 & batch & _ & -> & Hregions & _ & Hstart & Hindices).
  - reflexivity.
  - vm_compute. split; [discriminate | reflexivity].
  - exists regions. split_and!.
    + rewrite Hstart. reflexivity.
    + exact Hregions.
    + etrans; [exact Hindices|]. rewrite Hstart. reflexivity.
Defined.

(** A follower in sync closes its stream after its request: the handler
    returns nil; on a reset connection it returns the error. *)
Lemma Sync_end_of_input :
  let rq := request 7 ["http://d:2379"] 42 in
  let s' := (Sync 4%nat [RecvOk rq] recorded).2 in
  Sync 4%nat ((RecvOk <$> [rq]) ++ [RecvErr io_EOF]) recorded = (Returned None, s') ∧
  Sync 4%nat ((RecvOk <$> [rq]) ++ [RecvErr (transport_error "connection reset")]) recorded =
    (Returned (Some (errors_WithStack (transport_error "connection reset"))), s').
Proof.
  split.
  - apply (Sync_recv_error 4%nat [request 7 ["http://d:2379"] 42] io_EOF [] recorded).
    reflexivity.
  - apply (Sync_recv_error 4%nat [request 7 ["http://d:2379"] 42]
             (transport_error "connection reset") [] recorded).
    reflexivity.
Defined.

(** A member with no client URL makes the handler panic. *)
Lemma Sync_no_client_url :
  Sync 4%nat [RecvOk (request 7 [] 40)] syncer =
    (Panicked "runtime error: index out of range", syncer).
Proof.
  apply (Sync_first_client_url_unchecked 4%nat (request 7 [] 40) syncer).
  - reflexivity.
  - reflexivity.
Defined.

(** Leaders are rejected in zone z1: the leader of region 5 moves from
    store 1 to store 3. *)
Example Schedule_zone_z1 :
  schedulers.Schedule schedulers.newLabelScheduler (cluster "z1") =
    ([schedule.NewOperator "label-reject-leader" 5
        (Some {| metapb.ConfVer := 1; metapb.Version := 1 |}) schedule.OpLeader
        [schedule.TransferLeader 1 3]],
     [("label-scheduler", "schedule"); ("label-scheduler", "new_operator")]).
Proof. vm_compute. reflexivity. Qed.

(** No store is in zone z9: nothing is scheduled. *)
Lemma Schedule_zone_z9 : (schedulers.Schedule schedulers.newLabelScheduler (cluster "z9")).1 = [].
Proof.
  apply (Schedule_transfers_leader_off_reject_store schedulers.newLabelScheduler (cluster "z9")).
  repeat constructor.
Defined.

(** A member with no client URL asks for the history from 40, which the
    history holds: the handler panics and no response is sent. *)
Lemma Sync_no_client_url_no_response :
  Sync 4%nat [RecvOk (request 7 [] 40)] recorded =
    (Panicked "runtime error: index out of range", recorded) ∧
  RecordsFrom 40 (history recorded) = [region 1; region 2].
Proof.
  split; [|reflexivity].
  apply (Sync_nonempty_replay_by_client_url 4%nat (request 7 [] 40) [] recorded).
  - reflexivity.
  - vm_compute. discriminate.
  - reflexivity.
Defined.

(** A member with no client URL that is current (index 42): the handler
    panics and the stream is not registered. *)
Lemma Sync_no_client_url_no_registration :
  Sync 4%nat [RecvOk (request 7 [] 42)] recorded =
    (Panicked "runtime error: index out of range", recorded) ∧
  streams recorded !! "d" = None.
Proof.
  split; [|reflexivity].
  apply (Sync_empty_replay_by_client_url 4%nat (request 7 [] 42) [] recorded).
  - reflexivity.
  - reflexivity.
  - reflexivity.
Defined.

End Samples.

(** * Further properties of the region syncer *)

Section BroadcastProperties.
Context {H : Type} `{History H} `{Env}.

Implicit Types (s : RegionSyncer H) (regions : pdpb.SyncRegionResponse).

Lemma zip_with_send_targets (entries : list (string * ServerStream)) regions
    (results : list (option error)) :
  length results = length entries →
  (zip_with (λ e r, (e.2, regions, r)) entries results).*1 =
  (λ e, (e.2, regions)) <$> entries.
Proof.
  revert results. induction entries as [|e entries IH]; intros [|r results] Hlen;
    simpl in *; try done.
  f_equal. apply IH. lia.
Qed.

(** The sends of one [broadcast], taken as a multiset: the message, once
    per entry of the table. *)
Lemma broadcast_sentSince regions s :
  (sentSince s (broadcast regions s)).*1 ≡ₚ
  (λ kv, (kv.2, regions)) <$> map_to_list (streams s).
Proof.
  unfold sentSince.
  destruct (broadcast_spec regions s) as (-> & _).
  rewrite drop_app_length, zip_with_send_targets by apply sendResults_length.
  by rewrite rangeStreams_perm.
Qed.


Lemma broadcast_streams_subseteq regions s :
  streams (broadcast regions s) ⊆ streams s.
Proof.
  destruct (broadcast_spec regions s) as (_ & -> & _). apply map_filter_subseteq.
Qed.

(** X1. With no follower registered, [broadcast] does nothing at all: no
    send, no log line, the syncer is returned as it was. *)
Theorem broadcast_empty_table regions s :
  streams s = ∅ → broadcast regions s = s.
Proof.
  intros Hempty. unfold broadcast.
  assert (rangeStreams (streams s) = []) as ->.
  { apply Permutation_nil_r. rewrite rangeStreams_perm, Hempty.
    by rewrite map_to_list_empty. }
  reflexivity.
Qed.

(** X2. A broadcast that follows another one goes to the followers the
    first one kept and to no other: the streams whose send failed in the
    first are not sent the second message. *)
Theorem broadcast_skips_dropped_followers regions regions' s :
  let entries := rangeStreams (streams s) in
  let failed := (failedSends entries (sendResults entries regions (sent s))).*1 in
  let s1 := broadcast regions s in
  (sentSince s1 (broadcast regions' s1)).*1 ≡ₚ
  (λ kv, (kv.2, regions')) <$>
    map_to_list (filter (λ kv, kv.1 ∉ failed) (streams s)).
Proof.
  intros entries failed s1. rewrite broadcast_sentSince. subst s1.
  destruct (broadcast_spec regions s) as (_ & -> & _). done.
Qed.


End BroadcastProperties.

Section RunServerProperties.
Context {H : Type} `{History H} `{Env}.

Implicit Types (s : RegionSyncer H) (regions : pdpb.SyncRegionResponse).

Lemma broadcast_sent_app regions s :
  ∃ events,
    sent (broadcast regions s) = sent s ++ events ∧
    Forall (λ ev : SendEvent, ev.1.2 = regions) events.
Proof.
  destruct (broadcast_spec regions s) as (-> & _). eexists. split; [done|].
  generalize (sendResults (rangeStreams (streams s)) regions (sent s)).
  induction (rangeStreams (streams s)) as [|e entries IH]; intros [|r results];
    simpl; constructor; [done|apply IH].
Qed.

(** The turns of the loop, one by one. *)
Lemma RunServer_cases step steps s :
  match step with
  | Notify r =>
      RunServer (step :: steps) s =
      RunServer steps (set_regionNotifier (regionNotifier s ++ [r]) s)
  | Select case_quit =>
      RunServer (step :: steps) s = log (log_Info "exit region syncer") s
  | Select case_ticker =>
      RunServer (step :: steps) s = RunServer steps (broadcast (keepAlive s) s)
  | Select case_regionNotifier =>
      match regionNotifier s with
      | [] => RunServer (step :: steps) s = RunServer steps s
      | first :: queue =>
          let n := Nat.min (length queue) maxSyncRegionBatchSize in
          RunServer (step :: steps) s =
          RunServer steps
            (broadcast
               {| pdpb.Header :=
                    Some {| pdpb.ResponseHeader_ClusterId := ClusterID (server s) |};
                  pdpb.Regions := core.GetMeta <$> first :: take n queue;
                  pdpb.StartIndex := GetNextIndex (history s) |}
               (set_history (foldl (λ h r, hRecord r h) (history s) (first :: take n queue))
                  (set_regionNotifier (drop n queue) s)))
      end
  end.
Proof.
  destruct step as [r|[]]; try done.
  destruct (regionNotifier s) as [|first queue] eqn:Hq.
  - simpl. by rewrite Hq.
  - by apply RunServer_notified.
Qed.

(** X4. The loop loses no notification and keeps their order: whatever the
    turns taken, the regions recorded in the history, in the order of their
    recording, followed by those still on the channel, are the regions that
    were on the channel at the start followed by those that arrived. *)
Theorem RunServer_records_in_arrival_order steps s :
  ∃ recorded,
    history (RunServer steps s) = foldl (λ h r, hRecord r h) (history s) recorded ∧
    recorded ++ regionNotifier (RunServer steps s) = regionNotifier s ++ arrivals steps.
Proof.
  revert s. induction steps as [|step steps IH]; intros s.
  - exists []. simpl. by rewrite app_nil_r.
  - pose proof (RunServer_cases step steps s) as Hstep.
    destruct step as [r|[]].
    + rewrite Hstep.
      destruct (IH (set_regionNotifier (regionNotifier s ++ [r]) s))
        as (recorded & Hh & Hq').
      exists recorded. split; [exact Hh|]. rewrite Hq'. simpl.
      by rewrite <- app_assoc.
    + rewrite Hstep. exists []. simpl. by rewrite app_nil_r.
    + destruct (regionNotifier s) as [|first queue] eqn:Hq.
      * rewrite Hstep. destruct (IH s) as (recorded & Hh & Hq').
        exists recorded. split; [exact Hh|]. by rewrite Hq', Hq.
      * cbv zeta in Hstep. rewrite Hstep.
        set (n := Nat.min (length queue) maxSyncRegionBatchSize) in *.
        set (regions := {| pdpb.Header := _ |}). set (s1 := set_history _ _).
        destruct (IH (broadcast regions s1)) as (recorded & Hh' & Hq').
        destruct (broadcast_spec regions s1) as (_ & _ & _ & Hh & Hn & _).
        rewrite Hn in Hq'. rewrite Hh in Hh'.
        assert (regionNotifier s1 = drop n queue) as Hs1q by done.
        assert (history s1 =
                foldl (λ h r, hRecord r h) (history s) (first :: take n queue))
          as Hs1h by done.
        rewrite Hs1q in Hq'. rewrite Hs1h in Hh'.
        exists ((first :: take n queue) ++ recorded). split.
        -- rewrite Hh'. by rewrite foldl_app.
        -- rewrite <- app_assoc, Hq', app_assoc. simpl. by rewrite take_drop.
    + rewrite Hstep.
      destruct (IH (broadcast (keepAlive s) s)) as (recorded & Hh' & Hq').
      destruct (broadcast_spec (keepAlive s) s) as (_ & _ & _ & Hh & Hn & _).
      rewrite Hh in Hh'. rewrite Hn in Hq'. by exists recorded.
Qed.

(** X5. With no more than [maxSyncRegionBatchSize] notifications queued
    behind the one received, a single turn takes them all: the message
    carries the whole channel in order, every region is recorded, and the
    channel is left empty. *)
Theorem RunServer_small_batch_empties_channel first queue steps s :
  regionNotifier s = first :: queue →
  (length queue ≤ maxSyncRegionBatchSize)%nat →
  ∃ regions s1,
    RunServer (Select case_regionNotifier :: steps) s =
      RunServer steps (broadcast regions s1) ∧
    pdpb.Regions regions = core.GetMeta <$> first :: queue ∧
    regionNotifier s1 = [] ∧
    history s1 = foldl (λ h r, hRecord r h) (history s) (first :: queue).
Proof.
  intros Hq Hlen. eexists _, _. split; [by apply RunServer_notified|].
  rewrite Nat.min_l by done. simpl.
  rewrite take_ge, drop_ge by done. done.
Qed.

(** X6. The loop never registers a follower: whatever the turns taken, the
    stream table at the end is a part of the table at the start (entries
    are dropped by failed sends, none is added or rebound). *)
Theorem RunServer_never_registers steps s :
  streams (RunServer steps s) ⊆ streams s.
Proof.
  revert s. induction steps as [|step steps IH]; intros s; [done|].
  pose proof (RunServer_cases step steps s) as Hstep.
  destruct step as [r|[]].
  - rewrite Hstep. apply (IH (set_regionNotifier _ s)).
  - by rewrite Hstep.
  - destruct (regionNotifier s) as [|first queue] eqn:Hq.
    + rewrite Hstep. apply IH.
    + cbv zeta in Hstep. rewrite Hstep.
      etrans; [apply IH|]. etrans; [apply broadcast_streams_subseteq|]. done.
  - rewrite Hstep. etrans; [apply IH|]. apply broadcast_streams_subseteq.
Qed.

(** X7. Every message the loop sends, batch or heartbeat, carries the
    cluster id of the server in its header; the loop only appends to the
    record of sends and leaves the server as it is. *)
Theorem RunServer_sends_own_cluster_id steps s :
  server (RunServer steps s) = server s ∧
  ∃ events,
    sent (RunServer steps s) = sent s ++ events ∧
    Forall (λ ev : SendEvent,
              pdpb.Header ev.1.2 =
              Some {| pdpb.ResponseHeader_ClusterId := ClusterID (server s) |}) events.
Proof.
  revert s. induction steps as [|step steps IH]; intros s.
  { split; [done|]. exists []. by rewrite app_nil_r. }
  pose proof (RunServer_cases step steps s) as Hstep.
  assert (∀ regions s1,
    server s1 = server s → sent s1 = sent s →
    pdpb.Header regions =
      Some {| pdpb.ResponseHeader_ClusterId := ClusterID (server s) |} →
    server (RunServer steps (broadcast regions s1)) = server s ∧
    ∃ events,
      sent (RunServer steps (broadcast regions s1)) = sent s ++ events ∧
      Forall (λ ev : SendEvent,
                pdpb.Header ev.1.2 =
                Some {| pdpb.ResponseHeader_ClusterId := ClusterID (server s) |}) events)
    as Hturn.
  { intros regions s1 Hsrv Hsent Hheader.
    destruct (IH (broadcast regions s1)) as (Hsrv' & events & Hsent' & Hall).
    destruct (broadcast_spec regions s1) as (_ & _ & _ & _ & _ & Hsrv1).
    destruct (broadcast_sent_app regions s1) as (events1 & Hsent1 & Hall1).
    rewrite Hsrv1, Hsrv in Hsrv', Hall. split; [done|].
    exists (events1 ++ events). split.
    - by rewrite Hsent', Hsent1, Hsent, app_assoc.
    - apply Forall_app. split; [|done].
      eapply Forall_impl; [exact Hall1|]. by intros ev ->. }
  destruct step as [r|[]].
  - rewrite Hstep. apply (IH (set_regionNotifier _ s)).
  - rewrite Hstep. split; [done|]. exists []. simpl. by rewrite app_nil_r.
  - destruct (regionNotifier s) as [|first queue] eqn:Hq.
    + rewrite Hstep. apply IH.
    + cbv zeta in Hstep. rewrite Hstep. by apply Hturn.
  - rewrite Hstep. by apply Hturn.
Qed.

End RunServerProperties.

Section SyncProperties.
Context {H : Type} `{History H} `{Env}.

Implicit Types (s : RegionSyncer H) (request : pdpb.SyncRegionRequest).

(** The replay leaves everything but the log and the record of sends, on
    which it makes at most one call, on the stream it is given. *)
Lemma syncHistoryRegion_frame request stream s :
  let s' := (syncHistoryRegion request stream s).2 in
  streams s' = streams s ∧ history s' = history s ∧
  regionNotifier s' = regionNotifier s ∧ server s' = server s ∧
  ∃ events, sent s' = sent s ++ events ∧
    Forall (λ ev : SendEvent, ev.1.1 = stream) events ∧ (length events ≤ 1)%nat.
Proof.
  unfold syncHistoryRegion.
  destruct (length _ =? 0)%nat; [destruct (decide _)|]; simpl;
    split_and!; try done.
  - exists []. rewrite app_nil_r. split_and!; [done|constructor|simpl; lia].
  - exists []. rewrite app_nil_r. split_and!; [done|constructor|simpl; lia].
  - eexists [_]. split_and!; [done|by repeat constructor|done].
Qed.

(** An empty replay inside the handler: nothing is sent, the stream is
    bound, and the handler goes on with the rest of the script. *)
Lemma Sync_empty_replay stream request url rest s :
  pdpb.GetClusterId (pdpb.GetHeader request) = ClusterID (server s) →
  pdpb.GetClientUrls (pdpb.GetMember request) !! 0%nat = Some url →
  RecordsFrom (pdpb.GetStartIndex request) (history s) = [] →
  ∃ s', Sync stream (RecvOk request :: rest) s = Sync stream rest s' ∧
    sent s' = sent s ∧
    streams s' = <[pdpb.GetName (pdpb.GetMember request) := stream]> (streams s) ∧
    history s' = history s ∧ server s' = server s.
Proof.
  intros Hid Hurl Hr. cbn [Sync].
  destruct (decide _) as [Hne|_]; [done|]. rewrite Hurl.
  set (s1 := log _ s).
  destruct (syncHistoryRegion_empty request stream s1 Hr) as (line & -> & _).
  eexists. split; [reflexivity|]. done.
Qed.

(** One request: what the handler does with it, by cases. *)
Lemma Sync_cases stream request rest s :
  let name := pdpb.GetName (pdpb.GetMember request) in
  (∃ e, Sync stream (RecvOk request :: rest) s = (Returned (Some e), s)) ∨
  (∃ msg, Sync stream (RecvOk request :: rest) s = (Panicked msg, s)) ∨
  ∃ line s2 err,
    syncHistoryRegion request stream (log line s) = (err, s2) ∧
    Sync stream (RecvOk request :: rest) s =
      match err with
      | Some e => (Returned (Some e), s2)
      | None => Sync stream rest (bindStream name stream s2)
      end.
Proof.
  intros name. cbn [Sync]. destruct (decide _); [left; eauto|].
  destruct (_ !! 0%nat) as [url|]; [|right; left; eauto].
  right; right.
  destruct (syncHistoryRegion _ _ _) as [err s2] eqn:Hsync.
  eexists _, s2, err. split; [exact Hsync|]. by destruct err.
Qed.

(** X8. When the send of the catch-up response fails, the session ends
    with the error of the send, as it is, and the stream is not registered:
    the table is the one from before the request. *)
Theorem Sync_failed_replay_not_registered stream request url rest e s :
  pdpb.GetClusterId (pdpb.GetHeader request) = ClusterID (server s) →
  pdpb.GetClientUrls (pdpb.GetMember request) !! 0%nat = Some url →
  RecordsFrom (pdpb.GetStartIndex request) (history s) ≠ [] →
  sendResult stream
    {| pdpb.Header := Some {| pdpb.ResponseHeader_ClusterId := ClusterID (server s) |};
       pdpb.Regions := core.GetMeta <$> RecordsFrom (pdpb.GetStartIndex request) (history s);
       pdpb.StartIndex := pdpb.GetStartIndex request |} (sent s) = Some e →
  (Sync stream (RecvOk request :: rest) s).1 = Returned (Some e) ∧
  streams (Sync stream (RecvOk request :: rest) s).2 = streams s.
Proof.
  intros Hid Hurl Hrecords Hsend. cbn [Sync].
  destruct (decide _) as [Hne|_]; [done|]. rewrite Hurl.
  unfold syncHistoryRegion. cbn [history log server sent].
  destruct (RecordsFrom _ _) as [|r records]; [done|].
  cbn [length Nat.eqb Send sent log server]. rewrite Hsend. done.
Qed.

(** X9. When the catch-up response is sent, the stream is registered under
    the member's name and the handler goes back to [Recv]: one response has
    gone out on the stream, and the table has this one entry set. *)
Theorem Sync_successful_replay_registers stream request url rest s :
  pdpb.GetClusterId (pdpb.GetHeader request) = ClusterID (server s) →
  pdpb.GetClientUrls (pdpb.GetMember request) !! 0%nat = Some url →
  RecordsFrom (pdpb.GetStartIndex request) (history s) ≠ [] →
  let resp :=
    {| pdpb.Header := Some {| pdpb.ResponseHeader_ClusterId := ClusterID (server s) |};
       pdpb.Regions := core.GetMeta <$> RecordsFrom (pdpb.GetStartIndex request) (history s);
       pdpb.StartIndex := pdpb.GetStartIndex request |} in
  sendResult stream resp (sent s) = None →
  ∃ s', Sync stream (RecvOk request :: rest) s = Sync stream rest s' ∧
    sent s' = sent s ++ [(stream, resp, None)] ∧
    streams s' = <[pdpb.GetName (pdpb.GetMember request) := stream]> (streams s) ∧
    history s' = history s.
Proof.
  intros Hid Hurl Hrecords resp Hsend. subst resp. cbn [Sync].
  destruct (decide _) as [Hne|_]; [done|]. rewrite Hurl.
  unfold syncHistoryRegion. cbn [history log server sent].
  destruct (RecordsFrom _ _) as [|r records]; [done|].
  cbn [length Nat.eqb Send sent log server]. rewrite Hsend.
  eexists. split; [reflexivity|]. done.
Qed.

(** X10. The handler never touches the history, the channel or the server:
    whatever it receives and however it ends, they are as before. *)
Theorem Sync_leaves_history_and_channel stream recvs s :
  history (Sync stream recvs s).2 = history s ∧
  regionNotifier (Sync stream recvs s).2 = regionNotifier s ∧
  server (Sync stream recvs s).2 = server s.
Proof.
  revert s. induction recvs as [|[request|err] rest IH]; intros s.
  - done.
  - destruct (Sync_cases stream request rest s)
      as [(e & ->)|[(msg & ->)|(line & s2 & err & Hsync & ->)]]; try done.
    pose proof (syncHistoryRegion_frame request stream (log line s)) as Hframe.
    rewrite Hsync in Hframe. destruct Hframe as (_ & Hh & Hq & Hsrv & _).
    destruct err as [e|]; [done|].
    destruct (IH (bindStream (pdpb.GetName (pdpb.GetMember request)) stream s2))
      as (-> & -> & ->). done.
  - simpl. by destruct (decide _).
Qed.

Lemma syncHistoryRegion_sent request stream s :
  let '(err, s') := syncHistoryRegion request stream s in
  RecordsFrom (pdpb.GetStartIndex request) (history s) = [] ∧
    err = None ∧ sent s' = sent s ∨
  RecordsFrom (pdpb.GetStartIndex request) (history s) ≠ [] ∧
    sent s' = sent s ++ [(stream, catchUp s request, err)].
Proof.
  unfold syncHistoryRegion, catchUp.
  destruct (RecordsFrom _ _) as [|r records]; simpl.
  - destruct (decide _); by left.
  - by right.
Qed.

Lemma catchUp_ext s s' request :
  history s' = history s → server s' = server s → catchUp s' request = catchUp s request.
Proof. unfold catchUp. by intros -> ->. Qed.

Lemma hasRecords_ext s s' request :
  history s' = history s → hasRecords s' request = hasRecords s request.
Proof. unfold hasRecords. by intros ->. Qed.

Lemma hasRecords_true s request :
  hasRecords s request = true ↔
  RecordsFrom (pdpb.GetStartIndex request) (history s) ≠ [].
Proof. unfold hasRecords. by destruct (RecordsFrom _ _). Qed.

(** X11. The handler only sends on the stream of its own connection, and
    its sends are exactly the catch-up responses that are due: one for each
    request that gets as far as the replay and for which the history holds
    records, in the order of the requests, up to and including the first
    whose send fails (every send before the last has succeeded, and when
    none has failed no due response is missing). *)
Theorem Sync_sends_on_own_stream stream recvs s :
  let due := filter (λ request, hasRecords s request)
                    (replayed (ClusterID (server s)) recvs) in
  ∃ served results,
    sent (Sync stream recvs s).2 =
      sent s ++ zip_with (λ request r, (stream, catchUp s request, r)) served results ∧
    length results = length served ∧
    served `prefix_of` due ∧
    (Forall (λ r, r = None) results ∧ served = due ∨
     ∃ succeeded e, results = succeeded ++ [Some e] ∧
                    Forall (λ r, r = None) succeeded).
Proof.
  revert s. induction recvs as [|[request|err] rest IH]; intros s; simpl.
  - exists [], []. rewrite app_nil_r. split_and!; [done|done|done|by left].
  - destruct (decide _) as [Hne|Heq].
    { exists [], []. simpl. rewrite app_nil_r. split_and!; [done|done|done|by left]. }
    destruct (_ !! 0%nat) as [url|].
    2: { exists [], []. simpl. rewrite app_nil_r.
         split_and!; [done|done|done|by left]. }
    set (s1 := log _ s).
    pose proof (syncHistoryRegion_frame request stream s1) as Hframe.
    pose proof (syncHistoryRegion_sent request stream s1) as Hsent.
    destruct (syncHistoryRegion request stream s1) as [err s2].
    destruct Hframe as (_ & Hh & _ & Hsrv & _). simpl in Hh, Hsrv, Hsent.
    rewrite (catchUp_ext s s1) in Hsent by done.
    set (s3 := bindStream (pdpb.GetName (pdpb.GetMember request)) stream s2).
    assert (history s3 = history s) as Hh3 by done.
    assert (server s3 = server s) as Hsrv3 by done.
    assert (sent s3 = sent s2) as Hsent3 by done.
    destruct (IH s3) as (served' & results' & Hsent' & Hlen & Hpre & Hres).
    cbv zeta in Hpre, Hres. rewrite Hsrv3 in Hpre, Hres.
    assert (filter (λ rq, hasRecords s3 rq) (replayed (ClusterID (server s)) rest) =
            filter (λ rq, hasRecords s rq) (replayed (ClusterID (server s)) rest))
      as Hdue.
    { apply list_filter_iff. intros rq. by rewrite (hasRecords_ext s s3). }
    rewrite Hdue in Hpre, Hres.
    assert (zip_with (λ rq r, (stream, catchUp s3 rq, r)) served' results' =
            zip_with (λ rq r, (stream, catchUp s rq, r)) served' results') as Hsame.
    { apply zip_with_ext; [|done..]. intros rq r. by rewrite (catchUp_ext s s3). }
    rewrite Hsame, Hsent3 in Hsent'.
    destruct Hsent as [(Hempty & -> & Hs2)|(Hrecords & Hs2)].
    + rewrite filter_cons_False by (by intros ?%Is_true_true%hasRecords_true).
      exists served', results'. rewrite Hsent', Hs2. done.
    + rewrite filter_cons_True by (by apply Is_true_true, hasRecords_true).
      destruct err as [e|].
      * exists [request], [Some e]. simpl. rewrite Hs2.
        split_and!; [done|done|apply prefix_cons, prefix_nil|].
        right. exists [], e. by split.
      * exists (request :: served'), (None :: results'). simpl.
        rewrite Hsent', Hs2, <- app_assoc. simpl.
        split_and!; [done|by rewrite Hlen|by apply prefix_cons|].
        destruct Hres as [(Hall & ->)|(succeeded & e & -> & Hall)].
        -- left. split; [by constructor|done].
        -- right. exists (None :: succeeded), e. split; [done|by constructor].
  - exists [], []. destruct (decide _); simpl; rewrite app_nil_r;
      (split_and!; [done|done|done|by left]).
Qed.

(** X12. The handler registers nothing but its own stream, under the names
    the requests give, and it removes no entry: an entry of the table at the
    end was there at the start or binds a requesting member's name to the
    stream of the connection, and a name bound at the start is still bound. *)
Theorem Sync_registers_only_own_stream stream recvs s :
  (∀ name st,
     streams (Sync stream recvs s).2 !! name = Some st →
     streams s !! name = Some st ∨
     st = stream ∧
     ∃ request, RecvOk request ∈ recvs ∧ pdpb.GetName (pdpb.GetMember request) = name) ∧
  (∀ name, is_Some (streams s !! name) →
           is_Some (streams (Sync stream recvs s).2 !! name)).
Proof.
  revert s. induction recvs as [|[request|err] rest IH]; intros s.
  - split; [by left|done].
  - destruct (Sync_cases stream request rest s)
      as [(e & ->)|[(msg & ->)|(line & s2 & err & Hsync & ->)]];
      [split; [by left|done]..|].
    pose proof (syncHistoryRegion_frame request stream (log line s)) as Hframe.
    rewrite Hsync in Hframe. destruct Hframe as (Hstreams & _).
    simpl in Hstreams. destruct err as [e|].
    + simpl. rewrite Hstreams. split; [by left|done].
    + destruct (IH (bindStream (pdpb.GetName (pdpb.GetMember request)) stream s2))
        as (Hin & Hkeep).
      simpl in Hin, Hkeep. rewrite Hstreams in Hin, Hkeep. split.
      * intros name st Hlookup.
        destruct (Hin name st Hlookup) as [Hold|(-> & request' & Hmem & <-)].
        -- destruct (decide (pdpb.GetName (pdpb.GetMember request) = name))
             as [<-|Hne].
           ++ rewrite lookup_insert_eq in Hold. injection Hold as <-.
              right. split; [done|]. exists request. split; [left|done].
           ++ rewrite lookup_insert_ne in Hold by done. by left.
        -- right. split; [done|]. exists request'. split; [by right|done].
      * intros name Hsome. apply Hkeep.
        destruct (decide (pdpb.GetName (pdpb.GetMember request) = name))
          as [<-|Hne].
        -- rewrite lookup_insert_eq. eauto.
        -- by rewrite lookup_insert_ne.
  - simpl. destruct (decide _); (split; [by left|done]).
Qed.

(** X13. The handler returns nil only after a clean end of input: a script
    that makes it return without error contains [io.EOF]. *)
Theorem Sync_nil_only_on_EOF stream recvs s :
  (Sync stream recvs s).1 = Returned None → RecvErr io_EOF ∈ recvs.
Proof.
  revert s. induction recvs as [|[request|err] rest IH]; intros s.
  - done.
  - destruct (Sync_cases stream request rest s)
      as [(e & ->)|[(msg & ->)|(line & s2 & err & Hsync & ->)]]; try done.
    destruct err as [e|]; [done|]. intros Hnil. right. by eapply IH.
  - simpl. destruct (decide _) as [->|]; [intros _; left|done].
Qed.

(** X14. A receive error always ends the session: on a script that holds
    one, the handler returns or panics, it is never left waiting in
    [Recv]. *)
Theorem Sync_recv_error_ends_session stream recvs err s :
  RecvErr err ∈ recvs → (Sync stream recvs s).1 ≠ AwaitingRequest.
Proof.
  revert s. induction recvs as [|[request|err'] rest IH]; intros s Hin.
  - by apply elem_of_nil in Hin.
  - apply elem_of_cons in Hin as [?|Hin]; [done|].
    destruct (Sync_cases stream request rest s)
      as [(e & ->)|[(msg & ->)|(line & s2 & err0 & Hsync & ->)]]; try done.
    destruct err0 as [e|]; [done|]. by apply IH.
  - simpl. by destruct (decide _).
Qed.

(** X15. Followers that are all current: when every request of the script
    has the server's cluster id and a client URL, and asks for an index from
    which the history holds nothing, the handler sends nothing, binds its
    stream under each member's name in turn, and is back in [Recv]. *)
Theorem Sync_registers_each_current_follower stream requests s :
  Forall (λ request,
            pdpb.GetClusterId (pdpb.GetHeader request) = ClusterID (server s) ∧
            is_Some (pdpb.GetClientUrls (pdpb.GetMember request) !! 0%nat) ∧
            RecordsFrom (pdpb.GetStartIndex request) (history s) = []) requests →
  (Sync stream (RecvOk <$> requests) s).1 = AwaitingRequest ∧
  sent (Sync stream (RecvOk <$> requests) s).2 = sent s ∧
  streams (Sync stream (RecvOk <$> requests) s).2 =
    foldl (λ m request, <[pdpb.GetName (pdpb.GetMember request) := stream]> m)
          (streams s) requests.
Proof.
  revert s. induction requests as [|request rest IH]; intros s Hall; [done|].
  apply Forall_cons in Hall as ((Hid & [url Hurl] & Hrecords) & Hall).
  destruct (Sync_empty_replay stream request url (RecvOk <$> rest) s)
    as (s' & Hsync & Hsent & Hstreams & Hhist & Hsrv); [done..|].
  rewrite fmap_cons, Hsync. rewrite <- Hsent. cbn [foldl]. rewrite <- Hstreams.
  apply IH. by rewrite Hhist, Hsrv.
Qed.


End SyncProperties.

(** * Further properties of the label scheduler *)

Section ScheduleProperties.
Context `{SchedulerEnv}.

Import schedulers.

Lemma elem_of_foldl_union {A} (f : A → uint64) (l : list A) (init : gset uint64) x :
  x ∈ foldl (λ acc p, {[f p]} ∪ acc) init l ↔ x ∈ init ∨ ∃ p, p ∈ l ∧ f p = x.
Proof.
  revert init. induction l as [|p l IH]; intros init; simpl.
  - split; [by left|]. intros [?|(p & Hin & _)]; [done|by apply elem_of_nil in Hin].
  - rewrite IH, elem_of_union, elem_of_singleton. split.
    + intros [[->|?]|(q & ? & ?)]; [right|by left|right].
      * exists p. split; [left|done].
      * exists q. split; [by right|done].
    + intros [?|(q & [->|?]%elem_of_cons & <-)];
        [by left; right|by left; left|right]. by exists q.
Qed.

(** The stores kept away from the selector are those of the region's down
    peers and of its pending peers, and no other. *)
Lemma elem_of_excludeStoresOf region x :
  x ∈ excludeStoresOf region ↔
  (∃ p, p ∈ core.GetDownPeers region ∧ metapb.GetStoreId (pdpb.GetPeer p) = x) ∨
  (∃ p, p ∈ core.GetPendingPeers region ∧ metapb.GetStoreId p = x).
Proof.
  unfold excludeStoresOf.
  rewrite (elem_of_foldl_union metapb.GetStoreId).
  rewrite (elem_of_foldl_union (λ p, metapb.GetStoreId (pdpb.GetPeer p))).
  rewrite elem_of_empty. naive_solver.
Qed.

Lemma scheduleFrom_selected s cluster ids counters op :
  (scheduleFrom s cluster ids counters).1 = [op] →
  ∃ id region target,
    id ∈ ids ∧
    schedule.RandLeaderRegion cluster id = Some region ∧
    SelectTarget (selector s) cluster (schedule.GetFollowerStores cluster region)
      [schedule.NewExcludedFilter ∅ (excludeStoresOf region)] = Some target ∧
    op = schedule.NewOperator "label-reject-leader" (core.GetID region)
           (core.GetRegionEpoch region) schedule.OpLeader
           [schedule.TransferLeader id (core.GetId target)].
Proof.
  revert counters. induction ids as [|id rest IH]; intros counters; simpl; [done|].
  destruct (schedule.RandLeaderRegion cluster id) as [region|] eqn:Hregion.
  - destruct (SelectTarget _ _ _ _) as [target|] eqn:Htarget.
    + intros [= <-]. exists id, region, target. split_and!; [left|done..].
    + intros (id' & region' & target' & ? & ?)%IH.
      exists id', region', target'. split; [by right|done].
  - intros (id' & region' & target' & ? & ?)%IH.
    exists id', region', target'. split; [by right|done].
Qed.

Lemma scheduleFrom_nil s cluster ids counters :
  (scheduleFrom s cluster ids counters).1 = [] ↔
  ∀ id, id ∈ ids → ¬ movable s cluster id.
Proof.
  revert counters. induction ids as [|id rest IH]; intros counters; simpl.
  - split; [|done]. intros _ id Hin. by apply elem_of_nil in Hin.
  - destruct (schedule.RandLeaderRegion cluster id) as [region|] eqn:Hregion.
    + destruct (SelectTarget _ _ _ _) as [target|] eqn:Htarget.
      * split; [done|]. intros Hnone. exfalso. apply (Hnone id); [left|].
        by exists region, target.
      * rewrite IH. split.
        -- intros Hrest id' [->|?]%elem_of_cons; [|by apply Hrest].
           intros (region' & target' & Hr & Ht). congruence.
        -- intros Hall id' Hin. apply Hall. by right.
    + rewrite IH. split.
      * intros Hrest id' [->|?]%elem_of_cons; [|by apply Hrest].
        intros (region' & target' & Hr & _). congruence.
      * intros Hall id' Hin. apply Hall. by right.
Qed.



(** X17. The target of the operator is what the selector picked among the
    follower stores of the region, under one filter that excludes exactly
    the stores of the region's down peers and of its pending peers. *)
Theorem Schedule_target_avoids_down_and_pending s cluster op :
  (Schedule s cluster).1 = [op] →
  ∃ id region target excluded,
    op = schedule.NewOperator "label-reject-leader" (core.GetID region)
           (core.GetRegionEpoch region) schedule.OpLeader
           [schedule.TransferLeader id (core.GetId target)] ∧
    schedule.RandLeaderRegion cluster id = Some region ∧
    SelectTarget (selector s) cluster (schedule.GetFollowerStores cluster region)
      [schedule.NewExcludedFilter ∅ excluded] = Some target ∧
    ∀ x, x ∈ excluded ↔
      (∃ p, p ∈ core.GetDownPeers region ∧ metapb.GetStoreId (pdpb.GetPeer p) = x) ∨
      (∃ p, p ∈ core.GetPendingPeers region ∧ metapb.GetStoreId p = x).
Proof.
  unfold Schedule. destruct (size _ =? 0)%nat; [done|].
  intros (id & region & target & _ & Hregion & Htarget & ->)%scheduleFrom_selected.
  exists id, region, target, (excludeStoresOf region).
  split_and!; [done|done|done|]. apply elem_of_excludeStoresOf.
Qed.

(** X18. [Schedule] returns nothing exactly when no leader can be moved off
    a rejecting store: for every store of the cluster whose labels carry the
    reject-leader property, the cluster gives no region it leads or the
    selector finds no target for that region.  So an operator is returned
    whenever one such store has a region with a target. *)
Theorem Schedule_nothing_iff_none_movable s cluster :
  (Schedule s cluster).1 = [] ↔
  ∀ store, store ∈ schedule.GetStores cluster →
    schedule.CheckLabelProperty cluster RejectLeader (core.Labels store) = true →
    ¬ movable s cluster (core.GetId store).
Proof.
  unfold Schedule.
  set (reject := collectRejectLeaderStores cluster (schedule.GetStores cluster) ∅).
  assert (∀ id, id ∈ reject ↔
            ∃ store, store ∈ schedule.GetStores cluster ∧ core.GetId store = id ∧
              schedule.CheckLabelProperty cluster RejectLeader (core.Labels store) = true)
    as Hreject.
  { intros id. unfold reject. rewrite elem_of_collectRejectLeaderStores.
    rewrite elem_of_empty. naive_solver. }
  destruct (size reject =? 0)%nat eqn:Hsize.
  - split; [|done]. intros _ store Hstore Hcheck.
    apply Nat.eqb_eq, size_empty_inv in Hsize.
    assert (core.GetId store ∈ reject) as Hin by (apply Hreject; by exists store).
    exfalso. apply (Hsize (core.GetId store)) in Hin. by apply elem_of_empty in Hin.
  - rewrite scheduleFrom_nil. split.
    + intros Hnone store Hstore Hcheck. apply Hnone.
      rewrite rangeStores_perm, elem_of_elements. apply Hreject. by exists store.
    + intros Hnone id Hin.
      rewrite rangeStores_perm, elem_of_elements in Hin.
      apply Hreject in Hin as (store & Hstore & <- & Hcheck). by apply Hnone.
Qed.

End ScheduleProperties.

(** ** The further properties on the sample data *)

Section MoreSamples.
Import sample.

(** A new syncer has no follower: a heartbeat changes nothing. *)
Lemma broadcast_on_new_syncer :
  broadcast (keepAlive (NewRegionSyncer pd1 40)) (NewRegionSyncer pd1 40) =
  NewRegionSyncer pd1 40.
Proof.
  apply (broadcast_empty_table (keepAlive (NewRegionSyncer pd1 40)) (NewRegionSyncer pd1 40)).
  reflexivity.
Defined.


(** Three notifications: one turn takes them all and empties the channel. *)
Lemma RunServer_three_at_once :
  ∃ regions s1,
    RunServer [Select case_regionNotifier] (notified 3) = broadcast regions s1 ∧
    pdpb.Regions regions = core.GetMeta <$> [region 1; region 2; region 3] ∧
    regionNotifier s1 = [] ∧
    history s1 =
      foldl (λ h r, hRecord r h) (history (notified 3)) [region 1; region 2; region 3].
Proof.
  apply (RunServer_small_batch_empties_channel
           (region 1) [region 2; region 3] [] (notified 3)).
  - reflexivity.
  - vm_compute. lia.
Defined.

(** A follower whose stream is broken asks for the history from 40: the
    send fails, the session ends with that error and the stream is not
    bound. *)
Lemma Sync_broken_stream :
  (Sync 1%nat [RecvOk (requestOf "d" 40)] recorded).1 =
    Returned (Some (transport_error "broken pipe")) ∧
  streams (Sync 1%nat [RecvOk (requestOf "d" 40)] recorded).2 = streams recorded.
Proof.
  apply (Sync_failed_replay_not_registered 1%nat (requestOf "d" 40) "http://d:2379" []
           (transport_error "broken pipe") recorded).
  - reflexivity.
  - reflexivity.
  - vm_compute. discriminate.
  - reflexivity.
Defined.

(** The same request on a sound stream: one response with the regions 1
    and 2, and ["d"] is bound to the stream. *)
Lemma Sync_sound_stream :
  ∃ s', Sync 4%nat [RecvOk (requestOf "d" 40)] recorded = (AwaitingRequest, s') ∧
    (sent s').*1 =
      [(4%nat, {| pdpb.Header := Some {| pdpb.ResponseHeader_ClusterId := 7 |};
                  pdpb.Regions := [core.GetMeta (region 1); core.GetMeta (region 2)];
                  pdpb.StartIndex := 40 |})] ∧
    streams s' !! "d" = Some 4%nat.
Proof.
  destruct (Sync_successful_replay_registers 4%nat (requestOf "d" 40) "http://d:2379" []
              recorded) as (s' & Hsync & Hsent & Hstreams & _).
  - reflexivity.
  - reflexivity.
  - vm_compute. discriminate.
  - reflexivity.
  - exists s'. split_and!.
    + exact Hsync.
    + rewrite Hsent. reflexivity.
    + rewrite Hstreams. apply lookup_insert_eq.
Defined.

(** A session that returned nil has seen the end of its input. *)
Lemma Sync_returned_nil :
  RecvErr io_EOF ∈ [RecvOk (requestOf "d" 42); RecvErr io_EOF].
Proof.
  apply (Sync_nil_only_on_EOF 4%nat [RecvOk (requestOf "d" 42); RecvErr io_EOF] recorded).
  reflexivity.
Defined.

(** A reset connection ends the session. *)
Lemma Sync_connection_reset :
  (Sync 4%nat [RecvOk (requestOf "d" 42); RecvErr (transport_error "connection reset")]
        recorded).1 ≠ AwaitingRequest.
Proof.
  apply (Sync_recv_error_ends_session 4%nat _ (transport_error "connection reset") recorded).
  right. left.
Defined.

(** One connection that asks twice, as ["d"] and as ["e"], both current:
    its stream ends up under both names, and nothing is sent. *)
Lemma Sync_two_names :
  let s' := (Sync 4%nat (RecvOk <$> [requestOf "d" 42; requestOf "e" 42]) recorded).2 in
  (Sync 4%nat (RecvOk <$> [requestOf "d" 42; requestOf "e" 42]) recorded).1 = AwaitingRequest ∧
  sent s' = [] ∧
  streams s' = <["e" := 4%nat]> (<["d" := 4%nat]> (streams recorded)).
Proof.
  apply (Sync_registers_each_current_follower 4%nat
           [requestOf "d" 42; requestOf "e" 42] recorded).
  repeat constructor; by eexists.
Defined.


(** Store 1 rejects leaders and leads region 6, which has a down peer on
    store 4 and a pending peer on store 3: the leader goes to store 2, picked
    with the stores 3 and 4 excluded. *)
Lemma Schedule_past_down_and_pending :
  ∃ id region target excluded,
    schedule.NewOperator "label-reject-leader" 6
      (Some {| metapb.ConfVer := 1; metapb.Version := 1 |}) schedule.OpLeader
      [schedule.TransferLeader 1 2] =
    schedule.NewOperator "label-reject-leader" (core.GetID region)
      (core.GetRegionEpoch region) schedule.OpLeader
      [schedule.TransferLeader id (core.GetId target)] ∧
    schedule.RandLeaderRegion clusterPending id = Some region ∧
    SelectTarget (schedulers.selector schedulers.newLabelScheduler) clusterPending
      (schedule.GetFollowerStores clusterPending region)
      [schedule.NewExcludedFilter ∅ excluded] = Some target ∧
    ∀ x, x ∈ excluded ↔
      (∃ p, p ∈ core.GetDownPeers region ∧ metapb.GetStoreId (pdpb.GetPeer p) = x) ∨
      (∃ p, p ∈ core.GetPendingPeers region ∧ metapb.GetStoreId p = x).
Proof.
  apply (Schedule_target_avoids_down_and_pending schedulers.newLabelScheduler
           clusterPending).
  vm_compute. reflexivity.
Defined.

(** The same cluster, run: one operator, from store 1 to store 2. *)
Example Schedule_clusterPending :
  schedulers.Schedule schedulers.newLabelScheduler clusterPending =
    ([schedule.NewOperator "label-reject-leader" 6
        (Some {| metapb.ConfVer := 1; metapb.Version := 1 |}) schedule.OpLeader
        [schedule.TransferLeader 1 2]],
     [("label-scheduler", "schedule"); ("label-scheduler", "new_operator")]).
Proof. vm_compute. reflexivity. Qed.

(** No target for the one region: "no_target" once, then "no_region". *)
Example Schedule_clusterStuck :
  schedulers.Schedule schedulers.newLabelScheduler clusterStuck =
    ([], [("label-scheduler", "schedule"); ("label-scheduler", "no_target");
          ("label-scheduler", "no_region")]).
Proof. vm_compute. reflexivity. Qed.

(** One connection asks from 40 and then from 41: two catch-up responses
    on its stream, the regions 1 and 2 and then the region 2. *)
Example Sync_two_catch_ups :
  (sent (Sync 4%nat [RecvOk (requestOf "d" 40); RecvOk (requestOf "e" 41)] recorded).2).*1 =
    [(4%nat, catchUp recorded (requestOf "d" 40));
     (4%nat, catchUp recorded (requestOf "e" 41))] ∧
  pdpb.Regions (catchUp recorded (requestOf "e" 41)) = [core.GetMeta (region 2)].
Proof. vm_compute. done. Qed.

(** On the broken stream the first catch-up fails and is the only send. *)
Example Sync_catch_up_fails :
  sent (Sync 1%nat [RecvOk (requestOf "d" 40); RecvOk (requestOf "e" 41)] recorded).2 =
    [(1%nat, catchUp recorded (requestOf "d" 40), Some (transport_error "broken pipe"))].
Proof. vm_compute. done. Qed.

End MoreSamples.
